(** * edx_django_utils.admin.manage_users_by

    A shallow embedding of [update_user] and its helpers
    ([is_valid_django_hash], [_maybe_update], [_check_email_match],
    [_handle_remove]) together with the small part of Django they drive:
    the account table, the group table, the many-to-many membership table,
    the profile table and [transaction.atomic].

    The database is explicit state, what the command prints or logs is a
    chronological list of events, and a raised exception is the left
    summand of the result.

    What belongs to the deployment rather than to the module is kept
    abstract: [str.lower], the hashers behind [identify_hasher] and
    [make_password], and the random strings Django draws.  Whether the
    import of [UserProfile] succeeded is an argument of the command.
    Accounts and groups are identified by their unique names. *)

From Stdlib Require Import Ascii String.
From stdpp Require Import gmap strings list fin_maps.

Local Open Scope string_scope.

#[local] Set Warnings "-clear-no-such-hyp".

(** ** Python values *)

(** The double-quote character, as it occurs inside the message templates. *)
Definition dquote : string := String "034"%char EmptyString.

(** Truth value of an optional [str]: [None] and the empty string are falsy. *)
Definition truthy (o : option string) : bool :=
  match o with
  | None => false
  | Some EmptyString => false
  | Some (String _ _) => true
  end.

(** [gettext]: the module ships no message catalogue, messages stay as written. *)
Definition gettext (s : string) : string := s.

(** [template.format(arg)] for a template of the shape [before {} after]. *)
Definition format (before after arg : string) : string :=
  before +:+ arg +:+ after.

(** ** Exceptions and observable events *)

Inductive exn : Type :=
  | CommandError (msg : string).

Inductive attribute : Type :=
  | attr_email
  | attr_password
  | attr_is_staff
  | attr_is_superuser.

Inductive value : Type :=
  | VStr (s : string)
  | VBool (b : bool).

#[global] Instance value_eq_dec : EqDecision value.
Proof. solve_decision. Defined.

#[global] Instance attribute_eq_dec : EqDecision attribute.
Proof. solve_decision. Defined.

(** What a run does besides touching the database: writes to [sys.stderr],
    [print], [logger.error], and assignments to attributes of the
    in-memory user object. *)
Inductive event : Type :=
  | StderrWrite (s : string)
  | Print (s : string)
  | LoggerError (s : string)
  | SetAttr (a : attribute).

#[global] Instance event_eq_dec : EqDecision event.
Proof. solve_decision. Defined.

Definition is_setattr (e : event) : bool :=
  match e with
  | SetAttr _ => true
  | _ => false
  end.

(** Number of attribute assignments in a trace. *)
Definition attribute_writes (evs : list event) : nat :=
  length (filter (λ e, is_setattr e = true) evs).

Definition password_writes (evs : list event) : nat :=
  length (filter (λ e, e = SetAttr attr_password) evs).

(** ** The data model *)

(** A row of the account table; the key (the username) lives in the map. *)
Record UserRow : Type := mkUserRow {
  row_email : string;
  row_password : string;
  row_is_staff : bool;
  row_is_superuser : bool
}.

(** The in-memory model instance the command works on. *)
Record User : Type := mkUser {
  username : string;
  email : string;
  password : string;
  is_staff : bool;
  is_superuser : bool
}.

Definition from_row (name : string) (r : UserRow) : User :=
  mkUser name (row_email r) (row_password r) (row_is_staff r) (row_is_superuser r).

Definition to_row (u : User) : UserRow :=
  mkUserRow (email u) (password u) (is_staff u) (is_superuser u).

Definition getattr (u : User) (a : attribute) : value :=
  match a with
  | attr_email => VStr (email u)
  | attr_password => VStr (password u)
  | attr_is_staff => VBool (is_staff u)
  | attr_is_superuser => VBool (is_superuser u)
  end.

(** Assignment to an attribute.  The command only ever assigns a [str] to
    the string columns and a [bool] to the flags; any other combination
    leaves the record as it is. *)
Definition setattr (u : User) (a : attribute) (v : value) : User :=
  match a, v with
  | attr_email, VStr s => mkUser (username u) s (password u) (is_staff u) (is_superuser u)
  | attr_password, VStr s => mkUser (username u) (email u) s (is_staff u) (is_superuser u)
  | attr_is_staff, VBool b => mkUser (username u) (email u) (password u) b (is_superuser u)
  | attr_is_superuser, VBool b => mkUser (username u) (email u) (password u) (is_staff u) b
  | _, _ => u
  end.

(** The database: accounts keyed by their unique username, the group
    directory (names are unique), the membership table as
    (username, group name) pairs, and the usernames owning a profile. *)
Record DB : Type := mkDB {
  auth_user : gmap string UserRow;
  auth_group : gset string;
  auth_user_groups : gset (string * string);
  userprofile : gset string
}.

Definition with_auth_user (f : gmap string UserRow → gmap string UserRow) (d : DB) : DB :=
  mkDB (f (auth_user d)) (auth_group d) (auth_user_groups d) (userprofile d).

Definition with_auth_user_groups
    (f : gset (string * string) → gset (string * string)) (d : DB) : DB :=
  mkDB (auth_user d) (auth_group d) (f (auth_user_groups d)) (userprofile d).

Definition with_userprofile (f : gset string → gset string) (d : DB) : DB :=
  mkDB (auth_user d) (auth_group d) (auth_user_groups d) (f (userprofile d)).

(** [user.groups.all()] as a set. *)
Definition groups_of (name : string) (t : gset (string * string)) : gset string :=
  set_map snd (filter (λ p, p.1 = name) t).

(** [user.groups.set(objs)]: Django drops the memberships that are not in
    [objs] and adds those of [objs] that are not yet held. *)
Definition groups_replace (name : string) (objs : gset string)
    (t : gset (string * string)) : gset (string * string) :=
  let old_ids := groups_of name t in
  let stale := old_ids ∖ objs in
  let new_objs := objs ∖ old_ids in
  (t ∖ set_map (pair name) stale) ∪ set_map (pair name) new_objs.

(** ** The command monad: database state, event trace, exceptions *)

Definition M (A : Type) : Type := DB → DB * list event * (exn + A).

#[global] Instance M_ret : MRet M := λ A a d, (d, [], inr a).

#[global] Instance M_bind : MBind M := λ A B f m d,
  match m d with
  | (d1, evs1, inl e) => (d1, evs1, inl e)
  | (d1, evs1, inr a) =>
      match f a d1 with
      | (d2, evs2, r) => (d2, (evs1 ++ evs2)%list, r)
      end
  end.

Definition raise {A : Type} (e : exn) : M A := λ d, (d, [], inl e).

Definition emit (ev : event) : M unit := λ d, (d, [ev], inr tt).

Definition query {A : Type} (f : DB → A) : M A := λ d, (d, [], inr (f d)).

Definition execute (f : DB → DB) : M unit := λ d, (f d, [], inr tt).

(** [transaction.atomic]: the block runs against the database; when it
    raises, the writes it made are rolled back and the exception goes on
    to the caller.  Output already written is not part of the transaction. *)
Definition atomic {A : Type} (m : M A) : M A := λ d,
  match m d with
  | (d1, evs, inl e) => (d, evs, inl e)
  | (d1, evs, inr a) => (d1, evs, inr a)
  end.

Definition final_db {A : Type} (r : DB * list event * (exn + A)) : DB := r.1.1.

Definition trace {A : Type} (r : DB * list event * (exn + A)) : list event := r.1.2.

Definition outcome {A : Type} (r : DB * list event * (exn + A)) : exn + A := r.2.

(** ** Django collaborators *)

(** [get_user_model().objects.get(username=...)]; [None] is [DoesNotExist]. *)
Definition objects_get (name : string) : M (option User) :=
  query (λ d, from_row name <$> auth_user d !! name).

(** [get_user_model().objects.get_or_create(username=..., defaults={'email': ...})]:
    a missing account is inserted at once, with the model's field defaults. *)
Definition objects_get_or_create (name mail : string) : M (User * bool) :=
  found ← objects_get name;
  match found with
  | Some u => mret (u, false)
  | None =>
      let u := mkUser name mail EmptyString false false in
      execute (with_auth_user <[name := to_row u]>);;
      mret (u, true)
  end.

(** [user.save()]. *)
Definition save (u : User) : M unit :=
  execute (with_auth_user <[username u := to_row u]>).

(** [user.delete()]: the row goes, and with it the rows that reference it
    (memberships and profile). *)
Definition delete_user (u : User) : M unit :=
  execute (λ d,
    mkDB (delete (username u) (auth_user d))
         (auth_group d)
         (filter (λ p, p.1 ≠ username u) (auth_user_groups d))
         (userprofile d ∖ {[username u]})).

(** [Group.objects.get(name=...)]; [None] is [Group.DoesNotExist]. *)
Definition group_get (group_name : string) : M (option string) :=
  query (λ d, if decide (group_name ∈ auth_group d) then Some group_name else None).

Definition groups_all (u : User) : M (gset string) :=
  query (λ d, groups_of (username u) (auth_user_groups d)).

Definition groups_set (u : User) (objs : gset string) : M unit :=
  execute (with_auth_user_groups (groups_replace (username u) objs)).

(** [user.profile] exists. *)
Definition has_profile (u : User) : M bool :=
  query (λ d, bool_decide (username u ∈ userprofile d)).

(** [UserProfile.objects.create(user=user)]. *)
Definition profile_create (u : User) : M unit :=
  execute (with_userprofile (union {[username u]})).

(** Django's marker of an unusable password and
    [django.contrib.auth.hashers.is_password_usable] (Django 2.1 and later,
    the version the docstring of [is_valid_django_hash] refers to). *)
Definition UNUSABLE_PASSWORD_PREFIX : string := "!".

Definition is_password_usable (encoded : string) : bool :=
  negb (String.prefix UNUSABLE_PASSWORD_PREFIX encoded).

Definition has_usable_password (u : User) : bool :=
  is_password_usable (password u).

(** What a run draws from the random generator: the salt used by
    [set_password] and the suffix produced by [set_unusable_password]. *)
Record Entropy : Type := mkEntropy {
  salt : string;
  unusable_suffix : string
}.

(** [user.set_unusable_password()]. *)
Definition set_unusable_password (rnd : Entropy) (u : User) : M User :=
  emit (SetAttr attr_password);;
  mret (setattr u attr_password (VStr (UNUSABLE_PASSWORD_PREFIX +:+ unusable_suffix rnd))).

(** ** The module [manage_users_by] *)

Section manage_users_by.

(** Python's [str.lower]. *)
Variable lower : string → string.

(** [django.contrib.auth.hashers.identify_hasher] for the configured
    [PASSWORD_HASHERS]: the algorithm recognised in an encoded password,
    [None] where Django raises [ValueError]. *)
Variable identify_hasher : string → option string.

(** [django.contrib.auth.hashers.make_password raw salt] of the default hasher. *)
Variable make_password : string → string → string.

(** [user.set_password(raw_password)]. *)
Definition set_password (rnd : Entropy) (u : User) (raw_password : string) : M User :=
  emit (SetAttr attr_password);;
  mret (setattr u attr_password (VStr (make_password raw_password (salt rnd)))).

Definition is_valid_django_hash (encoded : string) : bool :=
  match identify_hasher encoded with
  | Some _ => true
  | None => false
  end.

Definition _maybe_update (user : User) (a : attribute) (new_value : value) : M User :=
  let old_value := getattr user a in
  if decide (new_value ≠ old_value)
  then emit (SetAttr a);; mret (setattr user a new_value)
  else mret user.

(** The message of the [CommandError] raised on an email mismatch. *)
Definition email_mismatch_message (name : string) : string :=
  format (gettext ("Skipping user " +:+ dquote))
         (gettext (dquote +:+ " because the specified and existing email "
                          +:+ "addresses do not match."))
         name.

Definition _check_email_match (user : User) (mail : string) : M unit :=
  if decide (lower (email user) ≠ lower mail)
  then raise (CommandError (email_mismatch_message (username user)))
  else mret tt.

Definition _handle_remove (name mail : string) : M unit :=
  emit (Print name);;
  found ← objects_get name;
  match found with
  | None => mret tt
  | Some user =>
      _check_email_match user mail;;
      delete_user user
  end.

(** The message of the [CommandError] raised on a rejected password hash. *)
Definition invalid_hash_message (name : string) : string :=
  "The password hash provided for user " +:+ name +:+ " is invalid.".

(** The loop that resolves the requested group names. *)
Fixpoint resolve_groups (names : list string) (new_groups : gset string)
    : M (gset string) :=
  match names with
  | [] => mret new_groups
  | group_name :: rest =>
      found ← group_get group_name;
      match found with
      | Some group => resolve_groups rest (new_groups ∪ {[group]})
      | None => resolve_groups rest new_groups
      end
  end.

(** The body of [update_user], before [transaction.atomic] wraps it.
    [UserProfile] tells whether the import at the top of the module
    succeeded; [groups] is [None] or the list of names. *)
Definition update_user_body (UserProfile : bool) (name mail : string)
    (is_remove staff superuser : bool) (groups : option (list string))
    (unusable_password : bool) (initial_password_hash : option string)
    (rnd : Entropy) : M unit :=
  emit (StderrWrite (format (gettext ("Entering into method for : " +:+ dquote))
                            (gettext dquote) name));;
  if negb UserProfile then
    emit (LoggerError "UserProfile module does not exist.")
  else if is_remove then
    _handle_remove name mail
  else
    '(user, created) ← objects_get_or_create name mail;
    '(user, old_groups) ←
      (if (created : bool) then
         if truthy initial_password_hash then
           let h := default EmptyString initial_password_hash in
           if negb (is_password_usable h && is_valid_django_hash h)
           then raise (CommandError (invalid_hash_message name))
           else emit (SetAttr attr_password);;
                mret (setattr user attr_password (VStr h), (∅ : gset string))
         else
           user ← set_password rnd user "dummypassword";
           mret (user, (∅ : gset string))
       else
         _check_email_match user mail;;
         old_groups ← groups_all user;
         mret (user, old_groups));
    user ← _maybe_update user attr_is_staff (VBool staff);
    user ← _maybe_update user attr_is_superuser (VBool superuser);
    user ← (if unusable_password && has_usable_password user
            then set_unusable_password rnd user
            else mret user);
    profiled ← has_profile user;
    (if (profiled : bool) then mret tt else profile_create user);;
    new_groups ← resolve_groups (default [] groups) ∅;
    let add_groups := new_groups ∖ old_groups in
    let remove_groups := old_groups ∖ new_groups in
    groups_set user new_groups;;
    save user;;
    emit (StderrWrite (format (gettext ("Created new user: " +:+ dquote))
                              (gettext dquote) (username user))).

(** [update_user], as decorated with [@transaction.atomic]. *)
Definition update_user (UserProfile : bool) (name mail : string)
    (is_remove staff superuser : bool) (groups : option (list string))
    (unusable_password : bool) (initial_password_hash : option string)
    (rnd : Entropy) : M unit :=
  atomic (update_user_body UserProfile name mail is_remove staff superuser
            groups unusable_password initial_password_hash rnd).

End manage_users_by.

(** ** A concrete deployment, to run the command on examples *)

Definition ascii_lower (c : ascii) : ascii :=
  let n := nat_of_ascii c in
  if (65 <=? n)%nat && (n <=? 90)%nat then ascii_of_nat (n + 32) else c.

Fixpoint str_lower (s : string) : string :=
  match s with
  | EmptyString => EmptyString
  | String c rest => String (ascii_lower c) (str_lower rest)
  end.

(** A single configured hasher: encoded passwords start with its name. *)
Definition demo_identify_hasher (encoded : string) : option string :=
  if String.prefix "pbkdf2_sha256$" encoded then Some "pbkdf2_sha256" else None.

Definition demo_make_password (raw salt_ : string) : string :=
  "pbkdf2_sha256$" +:+ salt_ +:+ "$" +:+ raw.

Definition demo_update_user :=
  update_user str_lower demo_identify_hasher demo_make_password.

Definition demo_rnd : Entropy := mkEntropy "s4lt" "0123456789".

Definition empty_db : DB := mkDB ∅ ∅ ∅ ∅.

Definition alice_row : UserRow :=
  mkUserRow "Alice@X.com" "pbkdf2_sha256$abc$pw" false false.

Definition demo_groups_db : DB :=
  mkDB (<["alice" := alice_row]> ∅)
       ({["A"; "B"; "C"; "staff-group"]} : gset string)
       ({[("alice", "A"); ("alice", "B")]} : gset (string * string))
       ({["alice"]} : gset string).

Definition bob_row : UserRow :=
  mkUserRow "bob@x.com" "!unusable" true false.

Definition two_accounts_db : DB :=
  mkDB (<["bob" := bob_row]> (<["alice" := alice_row]> ∅))
       ({["A"; "B"; "C"; "staff-group"]} : gset string)
       ({[("alice", "A"); ("alice", "B"); ("bob", "B")]} : gset (string * string))
       ({["alice"; "bob"]} : gset string).

(** ** Vocabulary for the proofs *)

(** Shorthands for stating what a run leaves behind. *)

Definition entering (name : string) : event :=
  StderrWrite (format (gettext ("Entering into method for : " +:+ dquote))
                      (gettext dquote) name).

Definition created_new_user (name : string) : event :=
  StderrWrite (format (gettext ("Created new user: " +:+ dquote))
                      (gettext dquote) name).

Definition flag_events (a : attribute) (new_value old_value : bool) : list event :=
  if decide (VBool new_value ≠ VBool old_value) then [SetAttr a] else [].

Definition marks_unusable (unusable_password : bool) (p : string) : bool :=
  unusable_password && is_password_usable p.

Definition settled_password (unusable_password : bool) (rnd : Entropy) (p : string)
    : string :=
  if marks_unusable unusable_password p
  then UNUSABLE_PASSWORD_PREFIX +:+ unusable_suffix rnd
  else p.

Definition resolved (groups : option (list string)) (d : DB) : gset string :=
  list_to_set (default [] groups) ∩ auth_group d.

(** The database after a run that went through to [user.save()]. *)
Definition saved_db (name : string) (row : UserRow) (groups : option (list string))
    (d : DB) : DB :=
  mkDB (<[name := row]> (auth_user d))
       (auth_group d)
       (groups_replace name (resolved groups d) (auth_user_groups d))
       ({[name]} ∪ userprofile d).

(** The password a new account starts with. *)
Definition initial_password (make_password : string → string → string)
    (initial_password_hash : option string) (rnd : Entropy) : string :=
  if truthy initial_password_hash
  then default EmptyString initial_password_hash
  else make_password "dummypassword" (salt rnd).

(** The test a new account's initial hash has to pass, if there is one. *)
Definition hash_accepted (identify_hasher : string → option string)
    (initial_password_hash : option string) : bool :=
  let h := default EmptyString initial_password_hash in
  implb (truthy initial_password_hash)
        (is_password_usable h && is_valid_django_hash identify_hasher h).

(** The database after [user.delete()] on the account of that name. *)
Definition deleted_db (name : string) (d : DB) : DB :=
  mkDB (delete name (auth_user d))
       (auth_group d)
       (filter (λ p, p.1 ≠ name) (auth_user_groups d))
       (userprofile d ∖ {[name]}).

(** Referential integrity, as the foreign keys of the tables demand it:
    a membership joins an account and a group that exist, a profile
    belongs to an account that exists. *)
Definition db_consistent (d : DB) : Prop :=
  set_Forall (λ p, is_Some (auth_user d !! p.1) ∧ p.2 ∈ auth_group d)
             (auth_user_groups d)
  ∧ set_Forall (λ u, is_Some (auth_user d !! u)) (userprofile d).

#[global] Instance db_consistent_dec (d : DB) : Decision (db_consistent d).
Proof. unfold db_consistent. apply _. Defined.

(** Unfolds the monad and the collaborators, leaving table lookups,
    decisions and the resolution loop in place. *)
Ltac unfold_run :=
  cbv beta iota zeta delta
    [update_user update_user_body atomic mbind M_bind mret M_ret emit query
     execute raise objects_get_or_create objects_get save delete_user
     groups_all groups_set has_profile profile_create set_unusable_password
     set_password _maybe_update _check_email_match _handle_remove
     has_usable_password with_auth_user with_auth_user_groups
     with_userprofile fmap option_fmap option_map from_row to_row getattr
     setattr negb final_db trace outcome];
  cbn [username email password is_staff is_superuser auth_user auth_group
       auth_user_groups userprofile row_email row_password row_is_staff
       row_is_superuser app fst snd].

Ltac unfold_atomic := unfold update_user, atomic.

Ltac unfold_valid_hash := unfold is_valid_django_hash in *.

Ltac case_cond :=
  match goal with
  | |- context [if ?c then _ else _] =>
      lazymatch type of c with
      | bool => destruct c eqn:?
      | _ => destruct c
      end
  end.

(** * Properties *)

(** ** The membership table *)

Lemma groups_of_replace (name : string) (objs : gset string) (t : gset (string * string)) :
  groups_of name (groups_replace name objs t) = objs.
Proof.
  unfold groups_of, groups_replace.
  apply set_eq. intros g. split.
  - intros Hg. apply elem_of_map in Hg as ([n g'] & -> & Hp).
    apply elem_of_filter in Hp as [Hn Hp]. simpl in *. subst n.
    apply elem_of_union in Hp as [Hp | Hp].
    + apply elem_of_difference in Hp as [Hin Hstale].
      destruct (decide (g' ∈ objs)) as [|Hno]; [done|].
      exfalso. apply Hstale. apply elem_of_map. exists g'. split; [done|].
      apply elem_of_difference. split; [|done].
      apply elem_of_map. exists (name, g'). split; [done|].
      apply elem_of_filter. done.
    + apply elem_of_map in Hp as (g'' & Heq & Hin). simplify_eq.
      set_solver.
  - intros Hg.
    destruct (decide ((name, g) ∈ t)) as [Hin|Hout].
    + apply elem_of_map. exists (name, g). split; [done|].
      apply elem_of_filter. split; [done|].
      apply elem_of_union. left. apply elem_of_difference. split; [done|].
      intros Hst. apply elem_of_map in Hst as (g' & Heq & Hd). simplify_eq.
      set_solver.
    + apply elem_of_map. exists (name, g). split; [done|].
      apply elem_of_filter. split; [done|].
      apply elem_of_union. right. apply elem_of_map. exists g. split; [done|].
      apply elem_of_difference. split; [done|].
      intros Hold. apply elem_of_map in Hold as ([n g'] & Heq & Hp).
      apply elem_of_filter in Hp as [Hn Hp]. simpl in *. by subst.
Qed.

Lemma groups_replace_same (name : string) (t : gset (string * string)) :
  groups_replace name (groups_of name t) t = t.
Proof.
  unfold groups_replace.
  replace (groups_of name t ∖ groups_of name t) with (∅ : gset string) by set_solver.
  rewrite set_map_empty. set_solver.
Qed.

Lemma groups_of_other (name other : string) (objs : gset string) (t : gset (string * string)) :
  other ≠ name →
  groups_of other (groups_replace name objs t) = groups_of other t.
Proof.
  intros Hne. unfold groups_of, groups_replace.
  apply set_eq. intros g. rewrite !elem_of_map. split.
  - intros ([n g'] & -> & Hp). apply elem_of_filter in Hp as [Hn Hp].
    simpl in *. subst n. exists (other, g'). split; [done|].
    apply elem_of_filter. split; [done|].
    apply elem_of_union in Hp as [Hp | Hp]; [set_solver|].
    apply elem_of_map in Hp as (g'' & Heq & _). by simplify_eq.
  - intros ([n g'] & -> & Hp). apply elem_of_filter in Hp as [Hn Hp].
    simpl in *. subst n. exists (other, g'). split; [done|].
    apply elem_of_filter. split; [done|].
    apply elem_of_union. left. apply elem_of_difference. split; [done|].
    intros Hst. apply elem_of_map in Hst as (g'' & Heq & _). by simplify_eq.
Qed.

(** ** Running the command *)

(** The resolution loop reads the directory only: it returns the names
    that are in it, on top of what was accumulated. *)
Lemma resolve_groups_run (names : list string) (acc : gset string) (d : DB) :
  resolve_groups names acc d
  = (d, [], inr (acc ∪ (list_to_set names ∩ auth_group d))).
Proof.
  revert acc. induction names as [|n names IH]; intros acc.
  - cbn [resolve_groups]. unfold mret, M_ret. do 2 f_equal. set_solver.
  - cbn [resolve_groups]. unfold mbind, M_bind, group_get, query.
    destruct (decide (n ∈ auth_group d)) as [Hin|Hout];
      rewrite IH; cbn; do 2 f_equal; set_solver.
Qed.

Lemma profile_present (name : string) (X : gset string) :
  bool_decide (name ∈ X) = true → {[name]} ∪ X = X.
Proof. intros H%bool_decide_eq_true. set_solver. Qed.

Lemma resolved_from_empty (groups : option (list string)) (d : DB) :
  ∅ ∪ list_to_set (default [] groups) ∩ auth_group d = resolved groups d.
Proof. unfold resolved. set_solver. Qed.

Lemma flag_written (new_value old_value : bool) :
  ¬ VBool new_value ≠ VBool old_value → old_value = new_value.
Proof. intros H. destruct new_value, old_value; try done; by destruct H. Qed.

Lemma is_password_usable_marked (s : string) :
  is_password_usable (UNUSABLE_PASSWORD_PREFIX +:+ s) = false.
Proof. by destruct s. Qed.

Lemma settled_password_unusable (unusable_password : bool) (rnd : Entropy) (p : string) :
  marks_unusable unusable_password (settled_password unusable_password rnd p) = false.
Proof.
  unfold settled_password, marks_unusable.
  destruct unusable_password; [|done]. cbn [andb].
  destruct (is_password_usable p) eqn:Hp; [|done].
  apply is_password_usable_marked.
Qed.

Lemma settled_password_keeps (unusable_password : bool) (rnd : Entropy) (p : string) :
  marks_unusable unusable_password p = false →
  settled_password unusable_password rnd p = p.
Proof. unfold settled_password. by intros ->. Qed.

Lemma flag_events_same (a : attribute) (b : bool) : flag_events a b b = [].
Proof. unfold flag_events. by case_decide. Qed.

Lemma groups_replace_idem (name : string) (objs : gset string)
    (t : gset (string * string)) :
  groups_replace name objs (groups_replace name objs t) = groups_replace name objs t.
Proof.
  rewrite <- (groups_of_replace name objs t) at 1.
  apply groups_replace_same.
Qed.

Lemma saved_db_idem (name : string) (row : UserRow) (groups : option (list string))
    (d : DB) :
  saved_db name row groups (saved_db name row groups d) = saved_db name row groups d.
Proof.
  unfold saved_db, resolved. cbn [auth_user auth_group auth_user_groups userprofile].
  rewrite insert_insert_eq, groups_replace_idem. f_equal. set_solver.
Qed.

Section run.

Variable lower : string → string.
Variable identify_hasher : string → option string.
Variable make_password : string → string → string.

Abbreviation update_user := (update_user lower identify_hasher make_password).
Abbreviation update_user_body := (update_user_body lower identify_hasher make_password).
Abbreviation is_valid_django_hash := (is_valid_django_hash identify_hasher).

Variables (name mail : string) (staff superuser : bool)
          (groups : option (list string)) (unusable_password : bool)
          (initial_password_hash : option string) (rnd : Entropy) (d : DB).

(** Without the profile module nothing happens beyond the log line. *)
Lemma run_no_profile (is_remove : bool) :
  update_user false name mail is_remove staff superuser groups
    unusable_password initial_password_hash rnd d
  = (d, [entering name; LoggerError "UserProfile module does not exist."], inr tt).
Proof. reflexivity. Qed.

Lemma run_remove_absent :
  auth_user d !! name = None →
  update_user true name mail true staff superuser groups
    unusable_password initial_password_hash rnd d
  = (d, [entering name; Print name], inr tt).
Proof. intros Hrow. unfold_run. rewrite Hrow. reflexivity. Qed.

Lemma run_remove_match (row : UserRow) :
  auth_user d !! name = Some row →
  lower (row_email row) = lower mail →
  update_user true name mail true staff superuser groups
    unusable_password initial_password_hash rnd d
  = (mkDB (delete name (auth_user d)) (auth_group d)
          (filter (λ p, p.1 ≠ name) (auth_user_groups d))
          (userprofile d ∖ {[name]}),
     [entering name; Print name], inr tt).
Proof.
  intros Hrow Hmail. unfold_run. rewrite Hrow. unfold_run.
  destruct (decide (lower (row_email row) ≠ lower mail)); [done|].
  reflexivity.
Qed.

(** An existing account with another email: the body stops at the check,
    having written nothing. *)
Lemma body_mismatch (is_remove : bool) (row : UserRow) :
  auth_user d !! name = Some row →
  lower (row_email row) ≠ lower mail →
  update_user_body true name mail is_remove staff superuser groups
    unusable_password initial_password_hash rnd d
  = (d, entering name :: (if is_remove then [Print name] else []),
     inl (CommandError (email_mismatch_message name))).
Proof.
  intros Hrow Hmail. destruct is_remove; unfold_run; rewrite Hrow; unfold_run;
    (destruct (decide (lower (row_email row) ≠ lower mail)); [|done]);
    reflexivity.
Qed.

Lemma run_mismatch (is_remove : bool) (row : UserRow) :
  auth_user d !! name = Some row →
  lower (row_email row) ≠ lower mail →
  update_user true name mail is_remove staff superuser groups
    unusable_password initial_password_hash rnd d
  = (d, entering name :: (if is_remove then [Print name] else []),
     inl (CommandError (email_mismatch_message name))).
Proof.
  intros Hrow Hmail. unfold_atomic.
  by rewrite (body_mismatch _ _ Hrow Hmail).
Qed.

(** An existing account with the expected email. *)
Lemma run_existing (row : UserRow) :
  auth_user d !! name = Some row →
  lower (row_email row) = lower mail →
  update_user true name mail false staff superuser groups
    unusable_password initial_password_hash rnd d
  = (saved_db name
       (mkUserRow (row_email row)
          (settled_password unusable_password rnd (row_password row))
          staff superuser)
       groups d,
     entering name
       :: flag_events attr_is_staff staff (row_is_staff row)
       ++ flag_events attr_is_superuser superuser (row_is_superuser row)
       ++ (if marks_unusable unusable_password (row_password row)
           then [SetAttr attr_password] else [])
       ++ [created_new_user name],
     inr tt).
Proof.
  intros Hrow Hmail. unfold_run. rewrite Hrow. unfold_run.
  destruct (decide (lower (row_email row) ≠ lower mail)) as [|_]; [done|].
  unfold_run. unfold saved_db, settled_password, marks_unusable, flag_events.
  repeat (case_cond; unfold_run); rewrite resolve_groups_run;
    unfold_run; rewrite resolved_from_empty;
    repeat match goal with
      | H : bool_decide _ = true |- _ => rewrite (profile_present _ _ H); clear H
      | H : ¬ VBool _ ≠ VBool _ |- _ => apply flag_written in H; rewrite ?H
      end;
    reflexivity.
Qed.

(** A new account with a rejected hash: the body raises after
    [get_or_create] has inserted the row; [atomic] takes it back. *)
Lemma body_invalid_hash :
  auth_user d !! name = None →
  hash_accepted identify_hasher initial_password_hash = false →
  update_user_body true name mail false staff superuser groups
    unusable_password initial_password_hash rnd d
  = (with_auth_user <[name := mkUserRow mail EmptyString false false]> d,
     [entering name], inl (CommandError (invalid_hash_message name))).
Proof.
  intros Hrow Hacc. unfold hash_accepted in Hacc.
  unfold_run. rewrite Hrow. unfold_run.
  destruct (truthy initial_password_hash); [|done].
  cbn [implb] in Hacc. unfold_valid_hash.
  rewrite Hacc. reflexivity.
Qed.

Lemma run_invalid_hash :
  auth_user d !! name = None →
  hash_accepted identify_hasher initial_password_hash = false →
  update_user true name mail false staff superuser groups
    unusable_password initial_password_hash rnd d
  = (d, [entering name], inl (CommandError (invalid_hash_message name))).
Proof.
  intros Hrow Hacc. unfold_atomic.
  by rewrite (body_invalid_hash Hrow Hacc).
Qed.

(** A new account that goes through. *)
Lemma run_created :
  auth_user d !! name = None →
  hash_accepted identify_hasher initial_password_hash = true →
  update_user true name mail false staff superuser groups
    unusable_password initial_password_hash rnd d
  = (saved_db name
       (mkUserRow mail
          (settled_password unusable_password rnd
             (initial_password make_password initial_password_hash rnd))
          staff superuser)
       groups d,
     entering name
       :: SetAttr attr_password
       :: flag_events attr_is_staff staff false
       ++ flag_events attr_is_superuser superuser false
       ++ (if marks_unusable unusable_password
                 (initial_password make_password initial_password_hash rnd)
           then [SetAttr attr_password] else [])
       ++ [created_new_user name],
     inr tt).
Proof.
  intros Hrow Hacc. unfold hash_accepted in Hacc. unfold initial_password.
  unfold_run. rewrite Hrow. unfold_run.
  unfold saved_db, settled_password, marks_unusable, flag_events.
  unfold_valid_hash.
  destruct (truthy initial_password_hash); cbn [implb] in Hacc;
    rewrite ?Hacc; unfold_run;
    repeat (case_cond; unfold_run); rewrite resolve_groups_run;
    unfold_run; rewrite resolved_from_empty, insert_insert_eq;
    repeat match goal with
      | H : bool_decide _ = true |- _ => rewrite (profile_present _ _ H); clear H
      | H : ¬ VBool _ ≠ VBool _ |- _ => apply flag_written in H; rewrite <- ?H
      end;
    reflexivity.
Qed.

End run.

(** * The specification, claim by claim *)

Section claims.

Variable lower : string → string.
Variable identify_hasher : string → option string.
Variable make_password : string → string → string.

Abbreviation update_user := (update_user lower identify_hasher make_password).
Abbreviation update_user_body := (update_user_body lower identify_hasher make_password).
Abbreviation is_valid_django_hash := (is_valid_django_hash identify_hasher).

(** A run on a database that an earlier run with the same request has
    saved finds nothing to do. *)
Lemma run_settled (name mail : string) (staff superuser : bool)
    (groups : option (list string)) (unusable_password : bool)
    (initial_password_hash : option string) (rnd : Entropy) (d : DB)
    (row : UserRow) :
  lower (row_email row) = lower mail →
  row_is_staff row = staff →
  row_is_superuser row = superuser →
  marks_unusable unusable_password (row_password row) = false →
  update_user true name mail false staff superuser groups
    unusable_password initial_password_hash rnd (saved_db name row groups d)
  = (saved_db name row groups d, [entering name; created_new_user name], inr tt).
Proof.
  intros Hmail Hstaff Hsuper Hpw.
  rewrite (run_existing _ _ _ _ _ _ _ _ _ _ _ _ row); [| apply lookup_insert_eq | done].
  rewrite Hstaff, Hsuper, !flag_events_same, Hpw, settled_password_keeps by done.
  cbn [app]. do 2 f_equal.
  rewrite <- Hstaff, <- Hsuper. destruct row as [e p st su]. cbn.
  apply saved_db_idem.
Qed.

(** C1, as the code has it: on the first creation of an account (profile
    module present, not in remove mode), a non-empty initial password
    hash that is unusable or that no configured hasher recognises makes
    [update_user] raise the invalid-hash [CommandError], and the account
    is not created: the database is the one before the call.  An empty
    string counts as no hash at all: the run is the run without a hash. *)
Theorem invalid_initial_hash_rejected (name mail : string) (staff superuser : bool)
    (groups : option (list string)) (unusable_password : bool) (h : string)
    (rnd : Entropy) (d : DB) :
  auth_user d !! name = None →
  truthy (Some h) = true →
  is_password_usable h && is_valid_django_hash h = false →
  let r := update_user true name mail false staff superuser groups
             unusable_password (Some h) rnd d in
  outcome r = inl (CommandError
                     ("The password hash provided for user " +:+ name
                      +:+ " is invalid."))
  ∧ final_db r = d
  ∧ auth_user (final_db r) !! name = None
  ∧ update_user true name mail false staff superuser groups
      unusable_password (Some EmptyString) rnd d
    = update_user true name mail false staff superuser groups
        unusable_password None rnd d.
Proof.
  intros Hrow Htruthy Hbad r. subst r.
  rewrite run_invalid_hash; [|done|].
  - cbn [outcome final_db fst snd]. repeat split; done.
  - unfold hash_accepted. rewrite Htruthy. cbn [implb default]. exact Hbad.
Qed.

(** C2, what the code does: a new account created without an initial
    hash (and not marked unusable) is stored with the hash of the
    literal password [dummypassword]; only the salt comes from the
    random generator. *)
Theorem new_account_password_is_dummypassword (name mail : string)
    (staff superuser : bool) (groups : option (list string))
    (initial_password_hash : option string) (rnd : Entropy) (d : DB) :
  auth_user d !! name = None →
  truthy initial_password_hash = false →
  let r := update_user true name mail false staff superuser groups
             false initial_password_hash rnd d in
  outcome r = inr tt
  ∧ row_password <$> auth_user (final_db r) !! name
    = Some (make_password "dummypassword" (salt rnd)).
Proof.
  intros Hrow Hfalsy r. subst r.
  rewrite run_created; [|done|].
  - cbn [outcome final_db fst snd]. split; [done|].
    unfold saved_db. cbn [auth_user]. rewrite lookup_insert_eq.
    cbn [fmap option_fmap option_map row_password].
    unfold settled_password, marks_unusable, initial_password.
    by rewrite Hfalsy.
  - unfold hash_accepted. by rewrite Hfalsy.
Qed.

(** C3: with the profile module present, a request (remove mode or not)
    for an existing account whose stored email differs, after
    lower-casing, from the desired one raises the [CommandError] whose
    message names the username; the database is untouched, already by
    the body of the command (no write precedes the check), and no
    attribute of the in-memory user has been assigned. *)
Theorem email_mismatch_aborts (name mail : string) (is_remove staff superuser : bool)
    (groups : option (list string)) (unusable_password : bool)
    (initial_password_hash : option string) (rnd : Entropy) (d : DB)
    (row : UserRow) :
  auth_user d !! name = Some row →
  lower (row_email row) ≠ lower mail →
  let r := update_user true name mail is_remove staff superuser groups
             unusable_password initial_password_hash rnd d in
  let b := update_user_body true name mail is_remove staff superuser groups
             unusable_password initial_password_hash rnd d in
  outcome r = inl (CommandError
                     ("Skipping user " +:+ dquote +:+ name +:+ dquote
                      +:+ " because the specified and existing email "
                      +:+ "addresses do not match."))
  ∧ final_db r = d
  ∧ final_db b = d
  ∧ attribute_writes (trace r) = 0.
Proof.
  intros Hrow Hmail r b. subst r b.
  rewrite (run_mismatch _ _ _ _ _ _ _ _ _ _ _ _ _ _ Hrow Hmail).
  rewrite (body_mismatch _ _ _ _ _ _ _ _ _ _ _ _ _ _ Hrow Hmail).
  cbn [outcome final_db trace fst snd].
  split; [reflexivity|]. do 2 (split; [reflexivity|]).
  by destruct is_remove.
Qed.

(** C9: when the import of [UserProfile] failed, every call, remove
    mode included, writes its entry line, logs the error and returns
    normally with the database as it was; the body of the command does
    the same, so nothing was written and rolled back either. *)
Theorem missing_profile_module_is_noop (name mail : string)
    (is_remove staff superuser : bool) (groups : option (list string))
    (unusable_password : bool) (initial_password_hash : option string)
    (rnd : Entropy) (d : DB) :
  update_user false name mail is_remove staff superuser groups
    unusable_password initial_password_hash rnd d
  = (d, [StderrWrite ("Entering into method for : " +:+ dquote +:+ name +:+ dquote);
         LoggerError "UserProfile module does not exist."],
     inr tt)
  ∧ update_user_body false name mail is_remove staff superuser groups
      unusable_password initial_password_hash rnd d
    = update_user false name mail is_remove staff superuser groups
        unusable_password initial_password_hash rnd d.
Proof.
  split; [|reflexivity].
  rewrite run_no_profile. reflexivity.
Qed.

(** C4: with [is_remove] false, a second run of the same request on the
    database left by the first run (whatever the random generator gives
    in either run) leaves that database as it is, ends as the first run
    ended, and assigns no attribute of the user object: neither
    [is_staff], [is_superuser] nor [password]; the membership table, being
    part of the database, is unchanged too. *)
Theorem update_user_idempotent (UserProfile : bool) (name mail : string)
    (staff superuser : bool) (groups : option (list string))
    (unusable_password : bool) (initial_password_hash : option string)
    (rnd1 rnd2 : Entropy) (d : DB) :
  let r1 := update_user UserProfile name mail false staff superuser groups
              unusable_password initial_password_hash rnd1 d in
  let r2 := update_user UserProfile name mail false staff superuser groups
              unusable_password initial_password_hash rnd2 (final_db r1) in
  final_db r2 = final_db r1
  ∧ outcome r2 = outcome r1
  ∧ attribute_writes (trace r2) = 0
  ∧ groups_of name (auth_user_groups (final_db r2))
    = groups_of name (auth_user_groups (final_db r1)).
Proof.
  intros r1 r2.
  assert (final_db r2 = final_db r1 ∧ outcome r2 = outcome r1
          ∧ attribute_writes (trace r2) = 0) as (Hdb & Hout & Hwr);
    [|by rewrite Hdb].
  subst r1 r2. destruct UserProfile; [|by rewrite !run_no_profile].
  destruct (auth_user d !! name) as [row|] eqn:Hrow.
  - destruct (decide (lower (row_email row) = lower mail)) as [Hmail|Hmail].
    + rewrite (run_existing _ _ _ _ _ _ _ _ _ _ rnd1 _ row Hrow Hmail).
      cbn [final_db outcome fst snd].
      rewrite run_settled; [done|done..|apply settled_password_unusable].
    + rewrite (run_mismatch _ _ _ _ _ _ _ _ _ _ rnd1 _ _ row Hrow Hmail).
      cbn [final_db outcome fst snd].
      by rewrite (run_mismatch _ _ _ _ _ _ _ _ _ _ rnd2 _ _ row Hrow Hmail).
  - destruct (hash_accepted identify_hasher initial_password_hash) eqn:Hacc.
    + rewrite (run_created _ _ _ _ _ _ _ _ _ _ rnd1 _ Hrow Hacc).
      cbn [final_db outcome fst snd].
      rewrite run_settled; [done|done..|apply settled_password_unusable].
    + rewrite (run_invalid_hash _ _ _ _ _ _ _ _ _ _ rnd1 _ Hrow Hacc).
      cbn [final_db outcome fst snd].
      by rewrite (run_invalid_hash _ _ _ _ _ _ _ _ _ _ rnd2 _ Hrow Hacc).
Qed.

(** C5: with [is_remove] false (profile module present), a run that
    returns normally leaves the account a member of exactly the
    requested names that exist in the group directory: held groups that
    were not requested are gone, requested ones are there, and names
    missing from the directory are dropped; whatever names are asked
    for, the run still returns normally. *)
Theorem groups_fully_replaced (name mail : string) (staff superuser : bool)
    (groups : option (list string)) (unusable_password : bool)
    (initial_password_hash : option string) (rnd : Entropy) (d : DB) :
  let r := update_user true name mail false staff superuser groups
             unusable_password initial_password_hash rnd d in
  outcome r = inr tt →
  (∀ g : string,
      g ∈ groups_of name (auth_user_groups (final_db r))
      ↔ g ∈ default [] groups ∧ g ∈ auth_group d)
  ∧ (∀ groups' : option (list string),
      outcome (update_user true name mail false staff superuser groups'
                 unusable_password initial_password_hash rnd d) = inr tt).
Proof.
  intros r. subst r.
  destruct (auth_user d !! name) as [row|] eqn:Hrow.
  - destruct (decide (lower (row_email row) = lower mail)) as [Hmail|Hmail].
    + rewrite (run_existing _ _ _ _ _ _ _ _ _ _ _ _ row Hrow Hmail).
      cbn [final_db outcome fst snd saved_db auth_user_groups]. intros _. split.
      * intros g. rewrite groups_of_replace. unfold resolved.
        by rewrite elem_of_intersection, elem_of_list_to_set.
      * intros groups'.
        by rewrite (run_existing _ _ _ _ _ _ _ _ _ _ _ _ row Hrow Hmail).
    + by rewrite (run_mismatch _ _ _ _ _ _ _ _ _ _ _ _ _ row Hrow Hmail).
  - destruct (hash_accepted identify_hasher initial_password_hash) eqn:Hacc.
    + rewrite (run_created _ _ _ _ _ _ _ _ _ _ _ _ Hrow Hacc).
      cbn [final_db outcome fst snd saved_db auth_user_groups]. intros _. split.
      * intros g. rewrite groups_of_replace. unfold resolved.
        by rewrite elem_of_intersection, elem_of_list_to_set.
      * intros groups'.
        by rewrite (run_created _ _ _ _ _ _ _ _ _ _ _ _ Hrow Hacc).
    + by rewrite (run_invalid_hash _ _ _ _ _ _ _ _ _ _ _ _ Hrow Hacc).
Qed.

(** C6: for every call, [update_user] ends as its body ends and prints
    what its body prints; when an error is raised the database is the
    one before the call (accounts, memberships and profiles alike), and
    when the call returns normally the database is the one the body
    left, with every write in it. *)
Theorem update_user_atomic (UserProfile : bool) (name mail : string)
    (is_remove staff superuser : bool) (groups : option (list string))
    (unusable_password : bool) (initial_password_hash : option string)
    (rnd : Entropy) (d : DB) :
  let r := update_user UserProfile name mail is_remove staff superuser groups
             unusable_password initial_password_hash rnd d in
  let b := update_user_body UserProfile name mail is_remove staff superuser
             groups unusable_password initial_password_hash rnd d in
  outcome r = outcome b
  ∧ trace r = trace b
  ∧ (∀ e : exn, outcome r = inl e → final_db r = d)
  ∧ (∀ a : unit, outcome r = inr a → final_db r = final_db b).
Proof.
  intros r b. subst r b. unfold_atomic.
  destruct (update_user_body _ _ _ _ _ _ _ _ _ _ _) as [[d1 evs] [e|a]];
    cbn [outcome trace final_db fst snd]; repeat split; congruence.
Qed.

(** C7: a call for an existing account that returns normally never
    changes the stored email: outside remove mode the account is still
    there with the email it had, even when the desired email is another
    spelling of it; and in every mode, whatever row the username has
    afterwards carries the old email. *)
Theorem existing_email_preserved (UserProfile : bool) (name mail : string)
    (is_remove staff superuser : bool) (groups : option (list string))
    (unusable_password : bool) (initial_password_hash : option string)
    (rnd : Entropy) (d : DB) (row : UserRow) :
  auth_user d !! name = Some row →
  let r := update_user UserProfile name mail is_remove staff superuser groups
             unusable_password initial_password_hash rnd d in
  outcome r = inr tt →
  (is_remove = false →
     row_email <$> auth_user (final_db r) !! name = Some (row_email row))
  ∧ (∀ row' : UserRow,
       auth_user (final_db r) !! name = Some row' →
       row_email row' = row_email row).
Proof.
  intros Hrow r. subst r.
  destruct UserProfile.
  - destruct (decide (lower (row_email row) = lower mail)) as [Hmail|Hmail].
    + destruct is_remove.
      * rewrite (run_remove_match _ _ _ _ _ _ _ _ _ _ _ _ row Hrow Hmail).
        cbn [final_db outcome fst snd auth_user]. intros _. split; [done|].
        intros row'. by rewrite lookup_delete_eq.
      * rewrite (run_existing _ _ _ _ _ _ _ _ _ _ _ _ row Hrow Hmail).
        cbn [final_db outcome fst snd saved_db auth_user]. intros _.
        rewrite lookup_insert_eq. split; [done|].
        intros row' [= <-]. done.
    + by rewrite (run_mismatch _ _ _ _ _ _ _ _ _ _ _ _ _ row Hrow Hmail).
  - rewrite run_no_profile. cbn [final_db outcome fst snd]. intros _.
    rewrite Hrow. split; [done|]. by intros row' [= <-].
Qed.

(** C8: a run with [unusable_password] set ([is_remove] false, profile
    module present) that returns normally leaves the account with an
    unusable password, so nothing in the call has made it usable again.
    For an account that existed before: if its password was usable it is
    now the unusable marker followed by the random suffix; if it was
    already unusable it is the very same string and the run has not
    assigned the password attribute at all. *)
Theorem unusable_password_one_way (name mail : string) (staff superuser : bool)
    (groups : option (list string)) (initial_password_hash : option string)
    (rnd : Entropy) (d : DB) :
  let r := update_user true name mail false staff superuser groups
             true initial_password_hash rnd d in
  outcome r = inr tt →
  ∃ row' : UserRow,
    auth_user (final_db r) !! name = Some row'
    ∧ is_password_usable (row_password row') = false
    ∧ (∀ row : UserRow,
         auth_user d !! name = Some row →
         if is_password_usable (row_password row)
         then row_password row' = UNUSABLE_PASSWORD_PREFIX +:+ unusable_suffix rnd
         else row_password row' = row_password row
              ∧ password_writes (trace r) = 0).
Proof.
  intros r. subst r.
  destruct (auth_user d !! name) as [row|] eqn:Hrow.
  - destruct (decide (lower (row_email row) = lower mail)) as [Hmail|Hmail].
    + rewrite (run_existing _ _ _ _ _ _ _ _ _ _ _ _ row Hrow Hmail).
      cbn [final_db outcome trace fst snd saved_db auth_user]. intros _.
      eexists. split; [apply lookup_insert_eq|]. cbn [row_password]. split.
      * apply (settled_password_unusable true).
      * intros ? [= <-]. unfold settled_password, marks_unusable, flag_events.
        cbn [andb]. destruct (is_password_usable (row_password row)); [done|].
        split; [done|]. by repeat case_decide.
    + by rewrite (run_mismatch _ _ _ _ _ _ _ _ _ _ _ _ _ row Hrow Hmail).
  - destruct (hash_accepted identify_hasher initial_password_hash) eqn:Hacc.
    + rewrite (run_created _ _ _ _ _ _ _ _ _ _ _ _ Hrow Hacc).
      cbn [final_db outcome trace fst snd saved_db auth_user]. intros _.
      eexists. split; [apply lookup_insert_eq|]. cbn [row_password]. split.
      * apply (settled_password_unusable true).
      * done.
    + by rewrite (run_invalid_hash _ _ _ _ _ _ _ _ _ _ _ _ Hrow Hacc).
Qed.

(** C10: a call with [is_remove] false for an account that already
    exists, however it ends, leaves the account in place, and its stored
    password differs from the one before only if [unusable_password] was
    asked for and the old password was usable; with [unusable_password]
    false the password is the old one; and the whole run is the same
    whatever initial password hash is passed. *)
Theorem existing_password_untouched (UserProfile : bool) (name mail : string)
    (staff superuser : bool) (groups : option (list string))
    (unusable_password : bool) (initial_password_hash : option string)
    (rnd : Entropy) (d : DB) (row : UserRow) :
  auth_user d !! name = Some row →
  let r := update_user UserProfile name mail false staff superuser groups
             unusable_password initial_password_hash rnd d in
  (∃ row' : UserRow,
     auth_user (final_db r) !! name = Some row'
     ∧ (row_password row' ≠ row_password row →
        unusable_password = true ∧ is_password_usable (row_password row) = true)
     ∧ (unusable_password = false → row_password row' = row_password row))
  ∧ (∀ h' : option string,
       update_user UserProfile name mail false staff superuser groups
         unusable_password h' rnd d = r).
Proof.
  intros Hrow r. subst r.
  destruct UserProfile.
  - destruct (decide (lower (row_email row) = lower mail)) as [Hmail|Hmail].
    + rewrite (run_existing _ _ _ _ _ _ _ _ _ _ _ _ row Hrow Hmail).
      cbn [final_db fst snd saved_db auth_user]. split.
      * eexists. split; [apply lookup_insert_eq|]. cbn [row_password].
        unfold settled_password, marks_unusable.
        destruct unusable_password, (is_password_usable (row_password row));
          cbn [andb]; done.
      * intros h'. by rewrite (run_existing _ _ _ _ _ _ _ _ _ _ _ _ row Hrow Hmail).
    + rewrite (run_mismatch _ _ _ _ _ _ _ _ _ _ _ _ _ row Hrow Hmail).
      cbn [final_db fst snd]. split.
      * exists row. done.
      * intros h'. by rewrite (run_mismatch _ _ _ _ _ _ _ _ _ _ _ _ _ row Hrow Hmail).
  - rewrite run_no_profile. cbn [final_db fst snd]. split.
    + exists row. done.
    + intros h'. by rewrite run_no_profile.
Qed.

End claims.

(** * The claims on concrete runs *)

(** An empty string as initial hash on a first creation: the command
    returns normally and the account exists, with the hash of the default
    password; no invalid-hash error is raised. *)
Lemma empty_initial_hash_creates_account :
  let r := demo_update_user true "alice" "a@x.com" false false false None false
             (Some EmptyString) demo_rnd empty_db in
  auth_user empty_db !! "alice" = None
  ∧ outcome r = inr tt
  ∧ auth_user (final_db r) !! "alice"
    = Some (mkUserRow "a@x.com" "pbkdf2_sha256$s4lt$dummypassword" false false)
  ∧ ¬ (outcome r
       = inl (CommandError "The password hash provided for user alice is invalid.")
       ∧ auth_user (final_db r) !! "alice" = None).
Proof.
  vm_compute. repeat split; try reflexivity. intros [H _]. discriminate H.
Qed.

Lemma invalid_initial_hash_rejected_witness :
  auth_user empty_db !! "alice" = None
  ∧ truthy (Some "not-a-hash") = true
  ∧ is_password_usable "not-a-hash"
    && is_valid_django_hash demo_identify_hasher "not-a-hash" = false
  ∧ let r := demo_update_user true "alice" "a@x.com" false true false
               (Some ["staff-group"]) false (Some "not-a-hash") demo_rnd empty_db in
    outcome r
    = inl (CommandError "The password hash provided for user alice is invalid.")
    ∧ final_db r = empty_db
    ∧ auth_user (final_db r) !! "alice" = None
    ∧ demo_update_user true "alice" "a@x.com" false true false
        (Some ["staff-group"]) false (Some EmptyString) demo_rnd empty_db
      = demo_update_user true "alice" "a@x.com" false true false
          (Some ["staff-group"]) false None demo_rnd empty_db.
Proof.
  split; [reflexivity|]. split; [reflexivity|]. split; [reflexivity|].
  apply (invalid_initial_hash_rejected str_lower demo_identify_hasher
           demo_make_password "alice" "a@x.com" true false (Some ["staff-group"])
           false "not-a-hash" demo_rnd empty_db); reflexivity.
Defined.

Lemma new_account_password_is_dummypassword_witness :
  auth_user empty_db !! "alice" = None
  ∧ truthy None = false
  ∧ let r := demo_update_user true "alice" "a@x.com" false true false
               (Some ["staff-group"]) false None demo_rnd empty_db in
    outcome r = inr tt
    ∧ row_password <$> auth_user (final_db r) !! "alice"
      = Some "pbkdf2_sha256$s4lt$dummypassword".
Proof.
  split; [reflexivity|]. split; [reflexivity|].
  apply (new_account_password_is_dummypassword str_lower demo_identify_hasher
           demo_make_password "alice" "a@x.com" true false (Some ["staff-group"])
           None demo_rnd empty_db); reflexivity.
Defined.

Lemma email_mismatch_aborts_witness :
  auth_user demo_groups_db !! "alice" = Some alice_row
  ∧ str_lower (row_email alice_row) ≠ str_lower "bob@x.com"
  ∧ let r := demo_update_user true "alice" "bob@x.com" true true true
               (Some ["C"]) true None demo_rnd demo_groups_db in
    let b := update_user_body str_lower demo_identify_hasher demo_make_password
               true "alice" "bob@x.com" true true true
               (Some ["C"]) true None demo_rnd demo_groups_db in
    outcome r
    = inl (CommandError
             ("Skipping user " +:+ dquote +:+ "alice" +:+ dquote
              +:+ " because the specified and existing email "
              +:+ "addresses do not match."))
    ∧ final_db r = demo_groups_db
    ∧ final_db b = demo_groups_db
    ∧ attribute_writes (trace r) = 0.
Proof.
  split; [reflexivity|]. split; [by vm_compute|].
  apply (email_mismatch_aborts str_lower demo_identify_hasher demo_make_password
           "alice" "bob@x.com" true true true (Some ["C"]) true None demo_rnd
           demo_groups_db alice_row); [reflexivity | by vm_compute].
Defined.

Lemma update_user_idempotent_witness :
  let r1 := demo_update_user true "alice" "alice@x.com" false true false
              (Some ["B"; "C"; "Z"]) true None demo_rnd demo_groups_db in
  let r2 := demo_update_user true "alice" "alice@x.com" false true false
              (Some ["B"; "C"; "Z"]) true None (mkEntropy "other" "9876543210")
              (final_db r1) in
  final_db r2 = final_db r1
  ∧ outcome r2 = outcome r1
  ∧ attribute_writes (trace r2) = 0
  ∧ groups_of "alice" (auth_user_groups (final_db r2))
    = groups_of "alice" (auth_user_groups (final_db r1)).
Proof.
  apply (update_user_idempotent str_lower demo_identify_hasher demo_make_password
           true "alice" "alice@x.com" true false (Some ["B"; "C"; "Z"]) true None
           demo_rnd (mkEntropy "other" "9876543210") demo_groups_db).
Defined.

Lemma groups_fully_replaced_witness :
  let r := demo_update_user true "alice" "alice@x.com" false true false
             (Some ["B"; "C"; "Z"]) false None demo_rnd demo_groups_db in
  groups_of "alice" (auth_user_groups demo_groups_db) = {["A"; "B"]}
  ∧ ("Z" ∉ auth_group demo_groups_db)
  ∧ outcome r = inr tt
  ∧ groups_of "alice" (auth_user_groups (final_db r)) = {["B"; "C"]}
  ∧ ((∀ g : string,
        g ∈ groups_of "alice" (auth_user_groups (final_db r))
        ↔ g ∈ default [] (Some ["B"; "C"; "Z"]) ∧ g ∈ auth_group demo_groups_db)
     ∧ (∀ groups' : option (list string),
          outcome (demo_update_user true "alice" "alice@x.com" false true false
                     groups' false None demo_rnd demo_groups_db) = inr tt)).
Proof.
  split; [by vm_compute|]. split; [by vm_compute|]. split; [reflexivity|].
  split; [by vm_compute|].
  apply (groups_fully_replaced str_lower demo_identify_hasher demo_make_password
           "alice" "alice@x.com" true false (Some ["B"; "C"; "Z"]) false None
           demo_rnd demo_groups_db); reflexivity.
Defined.

(** A rejected hash on a first creation: the body has inserted the account
    when it raises, the decorated command shows the database as it was. *)
Lemma update_user_atomic_witness :
  let r := demo_update_user true "alice" "a@x.com" false true false
             (Some ["staff-group"]) false (Some "not-a-hash") demo_rnd empty_db in
  let b := update_user_body str_lower demo_identify_hasher demo_make_password
             true "alice" "a@x.com" false true false
             (Some ["staff-group"]) false (Some "not-a-hash") demo_rnd empty_db in
  auth_user (final_db b) !! "alice"
  = Some (mkUserRow "a@x.com" EmptyString false false)
  ∧ outcome r
    = inl (CommandError "The password hash provided for user alice is invalid.")
  ∧ final_db r = empty_db.
Proof.
  split; [reflexivity|]. split; [reflexivity|].
  apply (proj1 (proj2 (proj2
           (update_user_atomic str_lower demo_identify_hasher demo_make_password
              true "alice" "a@x.com" false true false (Some ["staff-group"])
              false (Some "not-a-hash") demo_rnd empty_db)))
           (CommandError "The password hash provided for user alice is invalid.")).
  reflexivity.
Defined.

Lemma existing_email_preserved_witness :
  auth_user demo_groups_db !! "alice" = Some alice_row
  ∧ let r := demo_update_user true "alice" "alice@x.com" false true false
               (Some ["B"; "C"; "Z"]) false None demo_rnd demo_groups_db in
    outcome r = inr tt
    ∧ (false = false →
       row_email <$> auth_user (final_db r) !! "alice" = Some "Alice@X.com")
    ∧ (∀ row' : UserRow,
         auth_user (final_db r) !! "alice" = Some row' →
         row_email row' = "Alice@X.com").
Proof.
  split; [reflexivity|]. split; [reflexivity|].
  apply (existing_email_preserved str_lower demo_identify_hasher demo_make_password
           true "alice" "alice@x.com" false true false (Some ["B"; "C"; "Z"])
           false None demo_rnd demo_groups_db alice_row); reflexivity.
Defined.

Lemma unusable_password_one_way_witness :
  let r := demo_update_user true "alice" "alice@x.com" false true false
             (Some ["B"; "C"; "Z"]) true None demo_rnd demo_groups_db in
  outcome r = inr tt
  ∧ ∃ row' : UserRow,
      auth_user (final_db r) !! "alice" = Some row'
      ∧ is_password_usable (row_password row') = false
      ∧ (∀ row : UserRow,
           auth_user demo_groups_db !! "alice" = Some row →
           if is_password_usable (row_password row)
           then row_password row' = UNUSABLE_PASSWORD_PREFIX +:+ unusable_suffix demo_rnd
           else row_password row' = row_password row
                ∧ password_writes (trace r) = 0).
Proof.
  split; [reflexivity|].
  apply (unusable_password_one_way str_lower demo_identify_hasher demo_make_password
           "alice" "alice@x.com" true false (Some ["B"; "C"; "Z"]) None
           demo_rnd demo_groups_db); reflexivity.
Defined.

Lemma existing_password_untouched_witness :
  auth_user demo_groups_db !! "alice" = Some alice_row
  ∧ let r := demo_update_user true "alice" "alice@x.com" false true false
               (Some ["B"; "C"; "Z"]) false (Some "pbkdf2_sha256$zzz$other")
               demo_rnd demo_groups_db in
    (∃ row' : UserRow,
       auth_user (final_db r) !! "alice" = Some row'
       ∧ (row_password row' ≠ row_password alice_row →
          false = true ∧ is_password_usable (row_password alice_row) = true)
       ∧ (false = false → row_password row' = row_password alice_row))
    ∧ (∀ h' : option string,
         demo_update_user true "alice" "alice@x.com" false true false
           (Some ["B"; "C"; "Z"]) false h' demo_rnd demo_groups_db = r).
Proof.
  split; [reflexivity|].
  apply (existing_password_untouched str_lower demo_identify_hasher
           demo_make_password true "alice" "alice@x.com" true false
           (Some ["B"; "C"; "Z"]) false (Some "pbkdf2_sha256$zzz$other")
           demo_rnd demo_groups_db alice_row); reflexivity.
Defined.


(** * Further properties of the module *)

(** ** The tables under deletion and replacement *)

Lemma groups_of_deleted (name : string) (t : gset (string * string)) :
  groups_of name (filter (λ p, p.1 ≠ name) t) = ∅.
Proof.
  unfold groups_of. apply set_eq. intros g. split; [|set_solver].
  intros Hg. apply elem_of_map in Hg as ([n g'] & -> & Hp).
  apply elem_of_filter in Hp as [Hn Hp]. apply elem_of_filter in Hp as [Hne _].
  simpl in *. by subst.
Qed.

Lemma groups_of_deleted_other (name other : string) (t : gset (string * string)) :
  other ≠ name →
  groups_of other (filter (λ p, p.1 ≠ name) t) = groups_of other t.
Proof.
  intros Hne. unfold groups_of. apply set_eq. intros g.
  rewrite !elem_of_map. split.
  - intros ([n g'] & -> & Hp). apply elem_of_filter in Hp as [Hn Hp].
    apply elem_of_filter in Hp as [_ Hp]. simpl in *. subst n.
    exists (other, g'). split; [done|]. by apply elem_of_filter.
  - intros ([n g'] & -> & Hp). apply elem_of_filter in Hp as [Hn Hp].
    simpl in *. subst n. exists (other, g'). split; [done|].
    apply elem_of_filter. split; [done|]. by apply elem_of_filter.
Qed.

Lemma groups_of_empty_iff (name : string) (t : gset (string * string)) :
  groups_of name t = ∅ ↔ ∀ g : string, (name, g) ∉ t.
Proof.
  unfold groups_of. split.
  - intros Hempty g Hin.
    assert (g ∈ (∅ : gset string)) as Hg; [|set_solver].
    rewrite <- Hempty. apply elem_of_map. exists (name, g). split; [done|].
    by apply elem_of_filter.
  - intros Hno. apply set_eq. intros g. split; [|set_solver].
    intros Hg. apply elem_of_map in Hg as ([n g'] & -> & Hp).
    apply elem_of_filter in Hp as [Hn Hp]. simpl in *. subst n.
    by destruct (Hno g').
Qed.

Lemma elem_of_groups_replace (name : string) (objs : gset string)
    (t : gset (string * string)) (p : string * string) :
  p ∈ groups_replace name objs t →
  p ∈ t ∨ (p.1 = name ∧ p.2 ∈ objs).
Proof.
  unfold groups_replace. intros Hp.
  apply elem_of_union in Hp as [Hp|Hp].
  - left. by apply elem_of_difference in Hp as [Hp _].
  - right. apply elem_of_map in Hp as (g & -> & Hg).
    split; [done|]. by apply elem_of_difference in Hg as [Hg _].
Qed.

Lemma groups_replace_deleted (name : string) (objs : gset string)
    (t : gset (string * string)) :
  (∀ g : string, (name, g) ∉ t) →
  filter (λ p, p.1 ≠ name) (groups_replace name objs t) = t.
Proof.
  intros Hno. apply set_eq. intros [n g]. rewrite elem_of_filter. split.
  - intros [Hne Hp]. apply elem_of_groups_replace in Hp as [Hp|[Hn _]]; [done|].
    simpl in *. by subst.
  - intros Hp. assert (n ≠ name) as Hne by (intros ->; by destruct (Hno g)).
    split; [done|]. unfold groups_replace. apply elem_of_union. left.
    apply elem_of_difference. split; [done|].
    intros Hst. apply elem_of_map in Hst as (g' & Heq & _). by simplify_eq.
Qed.

Lemma profile_restored (name : string) (X : gset string) :
  name ∉ X → ({[name]} ∪ X) ∖ {[name]} = X.
Proof. set_solver. Qed.

Lemma profile_other (name other : string) (X : gset string) :
  other ≠ name → (other ∈ {[name]} ∪ X ↔ other ∈ X) ∧ (other ∈ X ∖ {[name]} ↔ other ∈ X).
Proof. set_solver. Qed.

Lemma resolved_same_names (groups1 groups2 : option (list string)) (d : DB) :
  (∀ g : string, g ∈ auth_group d →
                 (g ∈ default [] groups1 ↔ g ∈ default [] groups2)) →
  resolved groups1 d = resolved groups2 d.
Proof.
  intros Hsame. unfold resolved. apply set_eq. intros g.
  rewrite !elem_of_intersection, !elem_of_list_to_set. naive_solver.
Qed.

Lemma saved_db_consistent (name : string) (row : UserRow)
    (groups : option (list string)) (d : DB) :
  db_consistent d → db_consistent (saved_db name row groups d).
Proof.
  intros [Hm Hp]. unfold db_consistent, saved_db, resolved.
  cbn [auth_user auth_group auth_user_groups userprofile]. split.
  - intros p Hin. apply elem_of_groups_replace in Hin as [Hin|[Hn Hg]].
    + destruct (Hm p Hin) as [Hu Hg]. split; [|done].
      apply lookup_insert_is_Some'. by right.
    + split.
      * rewrite Hn. apply lookup_insert_is_Some'. by left.
      * by apply elem_of_intersection in Hg as [_ Hg].
  - intros u Hin. apply lookup_insert_is_Some'.
    apply elem_of_union in Hin as [Hin|Hin].
    + left. apply elem_of_singleton in Hin. by subst.
    + right. by apply Hp.
Qed.

Lemma deleted_db_consistent (name : string) (d : DB) :
  db_consistent d → db_consistent (deleted_db name d).
Proof.
  intros [Hm Hp]. unfold db_consistent, deleted_db.
  cbn [auth_user auth_group auth_user_groups userprofile]. split.
  - intros p Hin. apply elem_of_filter in Hin as [Hne Hin].
    destruct (Hm p Hin) as [Hu Hg]. split; [|done].
    by rewrite lookup_delete_ne.
  - intros u Hin. apply elem_of_difference in Hin as [Hin Hne].
    rewrite lookup_delete_ne; [by apply Hp|].
    intros ->. apply Hne. by apply elem_of_singleton.
Qed.

(** ** Every way a call can go *)

Section paths.

Variable lower : string → string.
Variable identify_hasher : string → option string.
Variable make_password : string → string → string.

Abbreviation update_user := (update_user lower identify_hasher make_password).

(** The seven paths through [update_user], each with what it leaves. *)
Lemma run_cases (UserProfile : bool) (name mail : string)
    (is_remove staff superuser : bool) (groups : option (list string))
    (unusable_password : bool) (initial_password_hash : option string)
    (rnd : Entropy) (d : DB) :
  let r := update_user UserProfile name mail is_remove staff superuser groups
             unusable_password initial_password_hash rnd d in
  (UserProfile = false
   ∧ r = (d, [entering name; LoggerError "UserProfile module does not exist."],
          inr tt))
  ∨ (UserProfile = true ∧ is_remove = true ∧ auth_user d !! name = None
     ∧ r = (d, [entering name; Print name], inr tt))
  ∨ (UserProfile = true ∧ is_remove = true
     ∧ ∃ row : UserRow,
         auth_user d !! name = Some row ∧ lower (row_email row) = lower mail
         ∧ r = (deleted_db name d, [entering name; Print name], inr tt))
  ∨ (UserProfile = true
     ∧ ∃ row : UserRow,
         auth_user d !! name = Some row ∧ lower (row_email row) ≠ lower mail
         ∧ r = (d, entering name :: (if is_remove then [Print name] else []),
                inl (CommandError (email_mismatch_message name))))
  ∨ (UserProfile = true ∧ is_remove = false
     ∧ ∃ (row : UserRow) (evs : list event),
         auth_user d !! name = Some row ∧ lower (row_email row) = lower mail
         ∧ r = (saved_db name
                  (mkUserRow (row_email row)
                     (settled_password unusable_password rnd (row_password row))
                     staff superuser)
                  groups d,
                entering name :: evs ++ [created_new_user name], inr tt))
  ∨ (UserProfile = true ∧ is_remove = false ∧ auth_user d !! name = None
     ∧ hash_accepted identify_hasher initial_password_hash = true
     ∧ ∃ evs : list event,
         r = (saved_db name
                (mkUserRow mail
                   (settled_password unusable_password rnd
                      (initial_password make_password initial_password_hash rnd))
                   staff superuser)
                groups d,
              entering name :: evs ++ [created_new_user name], inr tt))
  ∨ (UserProfile = true ∧ is_remove = false ∧ auth_user d !! name = None
     ∧ hash_accepted identify_hasher initial_password_hash = false
     ∧ r = (d, [entering name],
            inl (CommandError (invalid_hash_message name)))).
Proof.
  intros r. subst r. destruct UserProfile.
  - right. destruct (auth_user d !! name) as [row|] eqn:Hrow.
    + destruct (decide (lower (row_email row) = lower mail)) as [Hmail|Hmail].
      * destruct is_remove.
        -- right. left. do 2 (split; [done|]). exists row.
           do 2 (split; [done|]). by eapply run_remove_match.
        -- do 3 right. left. do 2 (split; [done|]). eexists row, _.
           do 2 (split; [done|]).
           rewrite (run_existing _ _ _ _ _ _ _ _ _ _ _ _ row Hrow Hmail).
           f_equal. f_equal. f_equal. by rewrite !app_assoc.
      * do 2 right. left. split; [done|]. exists row.
        do 2 (split; [done|]). by eapply run_mismatch.
    + destruct is_remove.
      * left. do 3 (split; [done|]). by apply run_remove_absent.
      * destruct (hash_accepted identify_hasher initial_password_hash) eqn:Hacc.
        -- do 4 right. left. do 4 (split; [done|]). eexists.
           rewrite (run_created _ _ _ _ _ _ _ _ _ _ _ _ Hrow Hacc).
           f_equal. f_equal. f_equal.
           rewrite app_comm_cons. by rewrite !app_assoc.
        -- do 5 right. do 4 (split; [done|]). by apply run_invalid_hash.
  - left. split; [done|]. apply run_no_profile.
Qed.

End paths.

Ltac run_paths lo ih mp UP name mail rem st su gr un h rnd d :=
  let H := fresh "Hpaths" in
  pose proof (run_cases lo ih mp UP name mail rem st su gr un h rnd d) as H;
  cbv zeta in H;
  destruct H as
    [(HUP & Hr)
    |[(HUP & Hrem & Hrow & Hr)
    |[(HUP & Hrem & prow & Hrow & Hmail & Hr)
    |[(HUP & prow & Hrow & Hmail & Hr)
    |[(HUP & Hrem & prow & pevs & Hrow & Hmail & Hr)
    |[(HUP & Hrem & Hrow & Hacc & pevs & Hr)
    |(HUP & Hrem & Hrow & Hacc & Hr)]]]]]];
  try discriminate HUP; try discriminate Hrem.

Lemma entering_not_created (name : string) : entering name ≠ created_new_user name.
Proof. intros H. vm_compute in H. discriminate H. Qed.

(** ** Removal *)

Section removal.

Variable lower : string → string.
Variable identify_hasher : string → option string.
Variable make_password : string → string → string.

Abbreviation update_user := (update_user lower identify_hasher make_password).

(** Removing a username that has no account is not an error: the call
    prints the name, returns normally and leaves every table as it was. *)
Theorem remove_absent_is_noop (name mail : string) (staff superuser : bool)
    (groups : option (list string)) (unusable_password : bool)
    (initial_password_hash : option string) (rnd : Entropy) (d : DB) :
  auth_user d !! name = None →
  update_user true name mail true staff superuser groups
    unusable_password initial_password_hash rnd d
  = (d, [StderrWrite ("Entering into method for : " +:+ dquote +:+ name +:+ dquote);
         Print name],
     inr tt).
Proof.
  intros Hnone.
  run_paths lower identify_hasher make_password true name mail true staff superuser groups unusable_password
            initial_password_hash rnd d; rewrite Hr; try congruence.
  reflexivity.
Qed.

(** Removing an account whose stored email matches the given one (up to
    [lower]) returns normally; afterwards the username has no account, no
    group membership and no profile. *)
Theorem remove_deletes_account (name mail : string) (staff superuser : bool)
    (groups : option (list string)) (unusable_password : bool)
    (initial_password_hash : option string) (rnd : Entropy) (d : DB)
    (row : UserRow) :
  auth_user d !! name = Some row →
  lower (row_email row) = lower mail →
  let r := update_user true name mail true staff superuser groups
             unusable_password initial_password_hash rnd d in
  outcome r = inr tt
  ∧ auth_user (final_db r) !! name = None
  ∧ groups_of name (auth_user_groups (final_db r)) = ∅
  ∧ (name ∉ userprofile (final_db r))
  ∧ attribute_writes (trace r) = 0.
Proof.
  intros Hsome Heq r. subst r.
  run_paths lower identify_hasher make_password true name mail true staff superuser groups unusable_password
            initial_password_hash rnd d; rewrite Hr; try congruence.
  cbn [outcome final_db trace fst snd deleted_db auth_user auth_user_groups
       userprofile].
  split; [done|]. split; [apply lookup_delete_eq|].
  split; [apply groups_of_deleted|]. split; [|done].
  clear. set_solver.
Qed.

(** Removing twice is removing once: a second removal with the same
    arguments finds the database as the first one left it, leaves it so,
    and ends the way the first one ended. *)
Theorem remove_idempotent (UserProfile : bool) (name mail : string)
    (staff superuser : bool) (groups : option (list string))
    (unusable_password : bool) (initial_password_hash : option string)
    (rnd1 rnd2 : Entropy) (d : DB) :
  let r1 := update_user UserProfile name mail true staff superuser groups
              unusable_password initial_password_hash rnd1 d in
  let r2 := update_user UserProfile name mail true staff superuser groups
              unusable_password initial_password_hash rnd2 (final_db r1) in
  final_db r2 = final_db r1 ∧ outcome r2 = outcome r1.
Proof.
  intros r1 r2. subst r1 r2.
  run_paths lower identify_hasher make_password UserProfile name mail true staff superuser groups unusable_password
            initial_password_hash rnd1 d; rewrite Hr; subst;
    cbn [final_db outcome fst snd].
  - by rewrite run_no_profile.
  - by rewrite run_remove_absent.
  - rewrite run_remove_absent; [done|]. apply lookup_delete_eq.
  - by erewrite run_mismatch.
Qed.

(** Creating an account and then removing it with the same email gives
    back the database one started from, provided that database was
    consistent: the removal returns normally and no row of any table is
    left over or lost. *)
Theorem create_then_remove_restores (name mail : string) (staff superuser : bool)
    (groups : option (list string)) (unusable_password : bool)
    (initial_password_hash : option string) (rnd1 rnd2 : Entropy) (d : DB) :
  db_consistent d →
  auth_user d !! name = None →
  let r1 := update_user true name mail false staff superuser groups
              unusable_password initial_password_hash rnd1 d in
  let r2 := update_user true name mail true staff superuser groups
              unusable_password initial_password_hash rnd2 (final_db r1) in
  outcome r1 = inr tt →
  outcome r2 = inr tt ∧ final_db r2 = d.
Proof.
  intros [Hm Hp] Hnone r1 r2. subst r1 r2.
  run_paths lower identify_hasher make_password true name mail false staff superuser groups unusable_password
            initial_password_hash rnd1 d; rewrite Hr; try congruence;
    cbn [final_db outcome fst snd]; [|done]. intros _.
  erewrite run_remove_match; [|apply lookup_insert_eq|done].
  cbn [final_db outcome fst snd saved_db auth_user auth_group
       auth_user_groups userprofile].
  split; [done|]. destruct d as [users dir members profiles].
  cbn [auth_user auth_group auth_user_groups userprofile] in *. f_equal.
  - by apply delete_insert_id.
  - apply groups_replace_deleted. intros g Hin.
    destruct (Hm _ Hin) as [[x Hx] _]. cbn in Hx. congruence.
  - apply profile_restored. intros Hin.
    destruct (Hp _ Hin) as [x Hx]. congruence.
Qed.

End removal.

(** ** Creation and update *)

Section reconciliation.

Variable lower : string → string.
Variable identify_hasher : string → option string.
Variable make_password : string → string → string.

Abbreviation update_user := (update_user lower identify_hasher make_password).
Abbreviation is_valid_django_hash := (is_valid_django_hash identify_hasher).

(** Whatever the arguments and however the call ends, it concerns one
    username only: every other account keeps its row, its memberships and
    its profile, and the group directory is never written (no group is
    created or deleted). *)
Theorem other_accounts_untouched (UserProfile : bool) (name mail : string)
    (is_remove staff superuser : bool) (groups : option (list string))
    (unusable_password : bool) (initial_password_hash : option string)
    (rnd : Entropy) (d : DB) :
  let r := update_user UserProfile name mail is_remove staff superuser groups
             unusable_password initial_password_hash rnd d in
  auth_group (final_db r) = auth_group d
  ∧ ∀ other : string,
      other ≠ name →
      auth_user (final_db r) !! other = auth_user d !! other
      ∧ groups_of other (auth_user_groups (final_db r))
        = groups_of other (auth_user_groups d)
      ∧ (other ∈ userprofile (final_db r) ↔ other ∈ userprofile d).
Proof.
  intros r. subst r.
  run_paths lower identify_hasher make_password UserProfile name mail is_remove
            staff superuser groups unusable_password initial_password_hash rnd d;
    rewrite Hr;
    cbn [final_db fst snd saved_db deleted_db auth_user auth_group
         auth_user_groups userprofile];
    (split; [done|]); intros other Hne; try done.
  - rewrite lookup_delete_ne by done. split; [done|].
    split; [by apply groups_of_deleted_other|]. by apply profile_other.
  - rewrite lookup_insert_ne by done. split; [done|].
    split; [by apply groups_of_other|]. by apply profile_other.
  - rewrite lookup_insert_ne by done. split; [done|].
    split; [by apply groups_of_other|]. by apply profile_other.
Qed.

(** How a call ends, with the profile module present, is decided by the
    account table, the two emails and the initial hash alone: an existing
    account with another email gives the mismatch error, a new account
    (outside remove mode) with a non-empty hash that is unusable or not
    recognised gives the invalid-hash error, and every other call returns
    normally.  Flags, group names and random values never cause an error. *)
Theorem update_user_outcome (name mail : string) (is_remove staff superuser : bool)
    (groups : option (list string)) (unusable_password : bool)
    (initial_password_hash : option string) (rnd : Entropy) (d : DB) :
  outcome (update_user true name mail is_remove staff superuser groups
             unusable_password initial_password_hash rnd d)
  = match auth_user d !! name with
    | Some row =>
        if decide (lower (row_email row) = lower mail)
        then inr tt
        else inl (CommandError (email_mismatch_message name))
    | None =>
        let h := default EmptyString initial_password_hash in
        if negb is_remove && truthy initial_password_hash
           && negb (is_password_usable h && is_valid_django_hash h)
        then inl (CommandError (invalid_hash_message name))
        else inr tt
    end.
Proof.
  run_paths lower identify_hasher make_password true name mail is_remove
            staff superuser groups unusable_password initial_password_hash rnd d;
    rewrite Hr; cbn [outcome snd]; rewrite Hrow; subst; cbn zeta.
  - done.
  - by rewrite decide_True.
  - by rewrite decide_False.
  - by rewrite decide_True.
  - unfold hash_accepted in Hacc. cbn [negb andb].
    destruct (truthy initial_password_hash); cbn [implb] in Hacc; [|done].
    unfold_valid_hash. by rewrite Hacc.
  - unfold hash_accepted in Hacc. cbn [negb andb].
    destruct (truthy initial_password_hash); cbn [implb] in Hacc; [|done].
    unfold_valid_hash. by rewrite Hacc.
Qed.

(** After a creation or update that returns normally (profile module
    present), the account exists with exactly the requested staff and
    superuser flags, it has a profile, its email agrees with the requested
    one up to [lower], and a newly created account carries the requested
    email as given. *)
Theorem successful_update_postcondition (name mail : string)
    (staff superuser : bool) (groups : option (list string))
    (unusable_password : bool) (initial_password_hash : option string)
    (rnd : Entropy) (d : DB) :
  let r := update_user true name mail false staff superuser groups
             unusable_password initial_password_hash rnd d in
  outcome r = inr tt →
  ∃ row' : UserRow,
    auth_user (final_db r) !! name = Some row'
    ∧ row_is_staff row' = staff
    ∧ row_is_superuser row' = superuser
    ∧ lower (row_email row') = lower mail
    ∧ (auth_user d !! name = None → row_email row' = mail)
    ∧ name ∈ userprofile (final_db r).
Proof.
  intros r. subst r.
  run_paths lower identify_hasher make_password true name mail false
            staff superuser groups unusable_password initial_password_hash rnd d;
    rewrite Hr; cbn [outcome final_db fst snd]; try done; intros _;
    cbn [saved_db auth_user userprofile]; eexists;
    (split; [apply lookup_insert_eq|]); cbn [row_is_staff row_is_superuser row_email];
    do 3 (split; [done|]).
  - split; [congruence|]. clear. set_solver.
  - split; [done|]. clear. set_solver.
Qed.

(** A new account created with a non-empty initial hash that is usable
    and recognised is stored with that very hash, no hashing applied to
    it; if [unusable_password] is asked for as well, the hash is replaced
    by the unusable marker and the random suffix. *)
Theorem valid_initial_hash_stored (name mail : string) (staff superuser : bool)
    (groups : option (list string)) (unusable_password : bool) (h : string)
    (rnd : Entropy) (d : DB) :
  auth_user d !! name = None →
  truthy (Some h) = true →
  is_password_usable h && is_valid_django_hash h = true →
  let r := update_user true name mail false staff superuser groups
             unusable_password (Some h) rnd d in
  outcome r = inr tt
  ∧ row_password <$> auth_user (final_db r) !! name
    = Some (if unusable_password
            then UNUSABLE_PASSWORD_PREFIX +:+ unusable_suffix rnd
            else h).
Proof.
  intros Hnone Htruthy Hok r. subst r.
  assert (hash_accepted identify_hasher (Some h) = true) as Hacc.
  { unfold hash_accepted. rewrite Htruthy. cbn [implb default]. exact Hok. }
  rewrite (run_created _ _ _ _ _ _ _ _ _ _ _ _ Hnone Hacc).
  cbn [outcome final_db fst snd saved_db auth_user]. split; [done|].
  rewrite lookup_insert_eq. cbn [fmap option_fmap option_map row_password].
  unfold settled_password, marks_unusable, initial_password.
  rewrite Htruthy. simpl default.
  apply andb_true_iff in Hok as [Hus _]. rewrite Hus.
  by destruct unusable_password.
Qed.

(** The requested group names matter only as a set, and only as far as
    the directory knows them: two requests whose lists hold the same
    directory names (in any order, with or without repetitions or unknown
    names, [None] counting as the empty list) run identically: same
    database, same output, same outcome. *)
Theorem group_names_matter_as_set (UserProfile : bool) (name mail : string)
    (is_remove staff superuser : bool) (groups1 groups2 : option (list string))
    (unusable_password : bool) (initial_password_hash : option string)
    (rnd : Entropy) (d : DB) :
  (∀ g : string, g ∈ auth_group d →
                 (g ∈ default [] groups1 ↔ g ∈ default [] groups2)) →
  update_user UserProfile name mail is_remove staff superuser groups1
    unusable_password initial_password_hash rnd d
  = update_user UserProfile name mail is_remove staff superuser groups2
      unusable_password initial_password_hash rnd d.
Proof.
  intros Hsame. apply resolved_same_names in Hsame.
  destruct UserProfile; [|by rewrite !run_no_profile].
  destruct (auth_user d !! name) as [row|] eqn:Hrow.
  - destruct (decide (lower (row_email row) = lower mail)) as [Hmail|Hmail].
    + destruct is_remove.
      * by rewrite !(run_remove_match _ _ _ _ _ _ _ _ _ _ _ _ row Hrow Hmail).
      * rewrite !(run_existing _ _ _ _ _ _ _ _ _ _ _ _ row Hrow Hmail).
        unfold saved_db. by rewrite Hsame.
    + by rewrite !(run_mismatch _ _ _ _ _ _ _ _ _ _ _ _ _ row Hrow Hmail).
  - destruct is_remove.
    + by rewrite !(run_remove_absent _ _ _ _ _ _ _ _ _ _ _ _ Hrow).
    + destruct (hash_accepted identify_hasher initial_password_hash) eqn:Hacc.
      * rewrite !(run_created _ _ _ _ _ _ _ _ _ _ _ _ Hrow Hacc).
        unfold saved_db. by rewrite Hsame.
      * by rewrite !(run_invalid_hash _ _ _ _ _ _ _ _ _ _ _ _ Hrow Hacc).
Qed.

(** Referential integrity is kept by every call, in every mode and
    however it ends: on a consistent database the command never leaves a
    membership that points to a missing account or to a missing group, nor
    a profile without its account. *)
Theorem update_user_keeps_consistency (UserProfile : bool) (name mail : string)
    (is_remove staff superuser : bool) (groups : option (list string))
    (unusable_password : bool) (initial_password_hash : option string)
    (rnd : Entropy) (d : DB) :
  db_consistent d →
  db_consistent
    (final_db (update_user UserProfile name mail is_remove staff superuser groups
                 unusable_password initial_password_hash rnd d)).
Proof.
  intros Hd.
  run_paths lower identify_hasher make_password UserProfile name mail is_remove
            staff superuser groups unusable_password initial_password_hash rnd d;
    rewrite Hr; cbn [final_db fst snd];
    auto using saved_db_consistent, deleted_db_consistent.
Qed.

(** The line [Created new user: "name"] is written to the error stream
    exactly by the calls that create or update an account and return
    normally: also when the account existed before the call, and never by
    a removal, a failed call or a call without the profile module. *)
Theorem created_line_written_iff (UserProfile : bool) (name mail : string)
    (is_remove staff superuser : bool) (groups : option (list string))
    (unusable_password : bool) (initial_password_hash : option string)
    (rnd : Entropy) (d : DB) :
  let r := update_user UserProfile name mail is_remove staff superuser groups
             unusable_password initial_password_hash rnd d in
  StderrWrite ("Created new user: " +:+ dquote +:+ name +:+ dquote) ∈ trace r
  ↔ UserProfile = true ∧ is_remove = false ∧ outcome r = inr tt.
Proof.
  intros r. subst r.
  change (StderrWrite ("Created new user: " +:+ dquote +:+ name +:+ dquote))
    with (created_new_user name).
  pose proof (entering_not_created name) as Hne.
  run_paths lower identify_hasher make_password UserProfile name mail is_remove
            staff superuser groups unusable_password initial_password_hash rnd d;
    rewrite Hr; cbn [trace outcome fst snd]; subst;
    unfold created_new_user, entering in *.
  - split; [|by intros [? _]]. rewrite !elem_of_cons, elem_of_nil.
    intros [?|[?|[]]]; congruence.
  - split; [|by intros (_ & ? & _)]. rewrite !elem_of_cons, elem_of_nil.
    intros [?|[?|[]]]; congruence.
  - split; [|by intros (_ & ? & _)]. rewrite !elem_of_cons, elem_of_nil.
    intros [?|[?|[]]]; congruence.
  - split; [|by intros (_ & _ & ?)]. destruct is_remove;
      rewrite !elem_of_cons, ?elem_of_nil; intros H; intuition congruence.
  - split; [done|]. intros _. apply elem_of_cons. right.
    apply elem_of_app. right. apply elem_of_cons. by left.
  - split; [done|]. intros _. apply elem_of_cons. right.
    apply elem_of_app. right. apply elem_of_cons. by left.
  - split; [|by intros (_ & _ & ?)]. rewrite !elem_of_cons, elem_of_nil.
    intros [?|[]]; congruence.
Qed.

End reconciliation.

(** ** Attribute writes *)

Ltac decide_membership :=
  intros;
  repeat match goal with
    | H : _ ∈ [] |- _ => by apply elem_of_nil in H
    | H : _ ∈ _ :: _ |- _ => apply elem_of_cons in H as [H|H]; try discriminate H
    end;
  repeat rewrite elem_of_cons; rewrite ?elem_of_nil;
  intuition (discriminate || congruence).

(** [_maybe_update] on one of the two flags: the flag ends up with the
    requested value, every other attribute and the database are as before,
    no error is raised, the attribute is assigned only if its value
    differed, and calling it again on the result assigns nothing. *)
Theorem maybe_update_sets_flag (user : User) (a : attribute) (b : bool) (d : DB) :
  a = attr_is_staff ∨ a = attr_is_superuser →
  ∃ (user' : User) (evs : list event),
    _maybe_update user a (VBool b) d = (d, evs, inr user')
    ∧ getattr user' a = VBool b
    ∧ (∀ a' : attribute, a' ≠ a → getattr user' a' = getattr user a')
    ∧ username user' = username user
    ∧ (evs = [] ↔ getattr user a = VBool b)
    ∧ (evs ≠ [] → evs = [SetAttr a])
    ∧ _maybe_update user' a (VBool b) d = (d, [], inr user').
Proof.
  intros Ha. unfold _maybe_update.
  destruct (decide (VBool b ≠ getattr user a)) as [Hne|Heq].
  - exists (setattr user a (VBool b)), [SetAttr a].
    assert (getattr (setattr user a (VBool b)) a = VBool b) as Hget
      by (by destruct Ha as [-> | ->]).
    split; [reflexivity|]. split; [done|]. split.
    { intros a' Hne'. destruct Ha as [-> | ->]; by destruct a'. }
    split; [by destruct Ha as [-> | ->]|].
    split; [split; [done|congruence]|]. split; [done|].
    rewrite Hget. by rewrite decide_False by (by intros H; apply H).
  - exists user, []. apply dec_stable in Heq.
    split; [reflexivity|]. do 3 (split; [done|]).
    split; [done|]. split; [done|].
    by rewrite decide_False by (by intros H; apply H).
Qed.

Section writes.

Variable lower : string → string.
Variable identify_hasher : string → option string.
Variable make_password : string → string → string.

Abbreviation update_user := (update_user lower identify_hasher make_password).

(** Updating an existing account (email matching, profile module
    present) assigns exactly the attributes that have to change:
    [is_staff] and [is_superuser] if and only if the stored flag differs
    from the requested one, [password] if and only if an unusable password
    is asked for and the stored one is usable, and [email] never. *)
Theorem update_writes_exactly_what_differs (name mail : string)
    (staff superuser : bool) (groups : option (list string))
    (unusable_password : bool) (initial_password_hash : option string)
    (rnd : Entropy) (d : DB) (row : UserRow) :
  auth_user d !! name = Some row →
  lower (row_email row) = lower mail →
  let r := update_user true name mail false staff superuser groups
             unusable_password initial_password_hash rnd d in
  (SetAttr attr_is_staff ∈ trace r ↔ row_is_staff row ≠ staff)
  ∧ (SetAttr attr_is_superuser ∈ trace r ↔ row_is_superuser row ≠ superuser)
  ∧ (SetAttr attr_password ∈ trace r
     ↔ unusable_password = true ∧ is_password_usable (row_password row) = true)
  ∧ SetAttr attr_email ∉ trace r.
Proof.
  intros Hrow Hmail r. subst r.
  rewrite (run_existing _ _ _ _ _ _ _ _ _ _ _ _ row Hrow Hmail).
  cbn [trace fst snd]. clear Hrow Hmail.
  destruct row as [e p st su]. cbn [row_is_staff row_is_superuser row_password].
  unfold flag_events, marks_unusable, entering, created_new_user.
  destruct (is_password_usable p), unusable_password, staff, st, superuser, su;
    repeat case_decide; try congruence;
    try (exfalso; match goal with H : ¬ _ ≠ _ |- _ => apply H; discriminate end);
    cbn [andb app]; repeat split; decide_membership.
Qed.

End writes.


(** ** The further properties on concrete runs *)

Lemma remove_absent_is_noop_witness :
  auth_user demo_groups_db !! "ghost" = None
  ∧ demo_update_user true "ghost" "g@x.com" true true true (Some ["A"]) true None
      demo_rnd demo_groups_db
    = (demo_groups_db,
       [StderrWrite ("Entering into method for : " +:+ dquote +:+ "ghost" +:+ dquote);
        Print "ghost"],
       inr tt).
Proof.
  split; [reflexivity|].
  apply (remove_absent_is_noop str_lower demo_identify_hasher demo_make_password
           "ghost" "g@x.com" true true (Some ["A"]) true None demo_rnd
           demo_groups_db).
  reflexivity.
Defined.

Lemma remove_deletes_account_witness :
  auth_user two_accounts_db !! "alice" = Some alice_row
  ∧ str_lower (row_email alice_row) = str_lower "ALICE@x.COM"
  ∧ let r := demo_update_user true "alice" "ALICE@x.COM" true false false None
               false None demo_rnd two_accounts_db in
    outcome r = inr tt
    ∧ auth_user (final_db r) !! "alice" = None
    ∧ groups_of "alice" (auth_user_groups (final_db r)) = ∅
    ∧ ("alice" ∉ userprofile (final_db r))
    ∧ attribute_writes (trace r) = 0.
Proof.
  split; [reflexivity|]. split; [reflexivity|].
  apply (remove_deletes_account str_lower demo_identify_hasher demo_make_password
           "alice" "ALICE@x.COM" false false None false None demo_rnd
           two_accounts_db alice_row); reflexivity.
Defined.

Lemma create_then_remove_restores_witness :
  db_consistent demo_groups_db
  ∧ auth_user demo_groups_db !! "bob" = None
  ∧ let r1 := demo_update_user true "bob" "bob@x.com" false true false
                (Some ["B"; "Z"]) false None demo_rnd demo_groups_db in
    let r2 := demo_update_user true "bob" "bob@x.com" true true false
                (Some ["B"; "Z"]) false None demo_rnd (final_db r1) in
    outcome r1 = inr tt
    ∧ final_db r1 ≠ demo_groups_db
    ∧ outcome r2 = inr tt
    ∧ final_db r2 = demo_groups_db.
Proof.
  split; [apply (bool_decide_unpack _); by vm_compute|].
  split; [reflexivity|]. split; [reflexivity|].
  split; [intros H; apply (f_equal (λ x, auth_user x !! "bob")) in H;
          vm_compute in H; discriminate H|].
  apply (create_then_remove_restores str_lower demo_identify_hasher
           demo_make_password "bob" "bob@x.com" true false (Some ["B"; "Z"]) false
           None demo_rnd demo_rnd demo_groups_db);
    [apply (bool_decide_unpack _); by vm_compute | reflexivity | reflexivity].
Defined.

Lemma other_accounts_untouched_witness :
  let r := demo_update_user true "alice" "alice@x.com" true false false None
             false None demo_rnd two_accounts_db in
  "bob" ≠ "alice"
  ∧ auth_user (final_db r) !! "alice" = None
  ∧ auth_user (final_db r) !! "bob" = Some bob_row
  ∧ groups_of "bob" (auth_user_groups (final_db r))
    = groups_of "bob" (auth_user_groups two_accounts_db)
  ∧ ("bob" ∈ userprofile (final_db r) ↔ "bob" ∈ userprofile two_accounts_db).
Proof.
  split; [by vm_compute|]. split; [reflexivity|].
  apply (proj2 (other_accounts_untouched str_lower demo_identify_hasher
                  demo_make_password true "alice" "alice@x.com" true false false
                  None false None demo_rnd two_accounts_db) "bob").
  by vm_compute.
Defined.

Lemma successful_update_postcondition_witness :
  let r := demo_update_user true "alice" "a@x.com" false true false
             (Some ["staff-group"]) false None demo_rnd empty_db in
  outcome r = inr tt
  ∧ ∃ row' : UserRow,
      auth_user (final_db r) !! "alice" = Some row'
      ∧ row_is_staff row' = true
      ∧ row_is_superuser row' = false
      ∧ str_lower (row_email row') = str_lower "a@x.com"
      ∧ (auth_user empty_db !! "alice" = None → row_email row' = "a@x.com")
      ∧ "alice" ∈ userprofile (final_db r).
Proof.
  split; [reflexivity|].
  apply (successful_update_postcondition str_lower demo_identify_hasher
           demo_make_password "alice" "a@x.com" true false (Some ["staff-group"])
           false None demo_rnd empty_db).
  reflexivity.
Defined.

Lemma valid_initial_hash_stored_witness :
  auth_user empty_db !! "alice" = None
  ∧ truthy (Some "pbkdf2_sha256$abc$pw") = true
  ∧ is_password_usable "pbkdf2_sha256$abc$pw"
    && is_valid_django_hash demo_identify_hasher "pbkdf2_sha256$abc$pw" = true
  ∧ let r := demo_update_user true "alice" "a@x.com" false false false None false
               (Some "pbkdf2_sha256$abc$pw") demo_rnd empty_db in
    outcome r = inr tt
    ∧ row_password <$> auth_user (final_db r) !! "alice"
      = Some "pbkdf2_sha256$abc$pw".
Proof.
  split; [reflexivity|]. split; [reflexivity|]. split; [reflexivity|].
  apply (valid_initial_hash_stored str_lower demo_identify_hasher
           demo_make_password "alice" "a@x.com" false false None false
           "pbkdf2_sha256$abc$pw" demo_rnd empty_db); reflexivity.
Defined.

Lemma same_directory_names_here :
  ∀ g : string, g ∈ auth_group demo_groups_db →
    (g ∈ default [] (Some ["B"; "Z"; "C"; "B"]) ↔ g ∈ default [] (Some ["C"; "B"])).
Proof.
  intros g Hg. cbn in Hg. cbn [default from_option id].
  rewrite !elem_of_cons, !elem_of_nil.
  assert (g ≠ "Z") as Hz; [|naive_solver].
  intros ->. revert Hg. by vm_compute.
Defined.

Lemma group_names_matter_as_set_witness :
  (∀ g : string, g ∈ auth_group demo_groups_db →
     (g ∈ default [] (Some ["B"; "Z"; "C"; "B"]) ↔ g ∈ default [] (Some ["C"; "B"])))
  ∧ demo_update_user true "alice" "alice@x.com" false true false
      (Some ["B"; "Z"; "C"; "B"]) false None demo_rnd demo_groups_db
    = demo_update_user true "alice" "alice@x.com" false true false
        (Some ["C"; "B"]) false None demo_rnd demo_groups_db.
Proof.
  split; [exact same_directory_names_here|].
  apply (group_names_matter_as_set str_lower demo_identify_hasher
           demo_make_password true "alice" "alice@x.com" false true false
           (Some ["B"; "Z"; "C"; "B"]) (Some ["C"; "B"]) false None demo_rnd
           demo_groups_db).
  exact same_directory_names_here.
Defined.

Lemma update_user_keeps_consistency_witness :
  db_consistent two_accounts_db
  ∧ db_consistent
      (final_db (demo_update_user true "alice" "alice@x.com" true false false None
                   false None demo_rnd two_accounts_db)).
Proof.
  split; [apply (bool_decide_unpack _); by vm_compute|].
  apply (update_user_keeps_consistency str_lower demo_identify_hasher
           demo_make_password true "alice" "alice@x.com" true false false None
           false None demo_rnd two_accounts_db).
  apply (bool_decide_unpack _); by vm_compute.
Defined.

Lemma maybe_update_sets_flag_witness :
  (attr_is_staff = attr_is_staff ∨ attr_is_staff = attr_is_superuser)
  ∧ ∃ (user' : User) (evs : list event),
      _maybe_update (from_row "alice" alice_row) attr_is_staff (VBool true) empty_db
      = (empty_db, evs, inr user')
      ∧ getattr user' attr_is_staff = VBool true
      ∧ (∀ a' : attribute, a' ≠ attr_is_staff →
           getattr user' a' = getattr (from_row "alice" alice_row) a')
      ∧ username user' = username (from_row "alice" alice_row)
      ∧ (evs = [] ↔ getattr (from_row "alice" alice_row) attr_is_staff = VBool true)
      ∧ (evs ≠ [] → evs = [SetAttr attr_is_staff])
      ∧ _maybe_update user' attr_is_staff (VBool true) empty_db
        = (empty_db, [], inr user').
Proof.
  split; [by left|].
  apply (maybe_update_sets_flag (from_row "alice" alice_row) attr_is_staff true
           empty_db).
  by left.
Defined.

Lemma update_writes_exactly_what_differs_witness :
  auth_user demo_groups_db !! "alice" = Some alice_row
  ∧ str_lower (row_email alice_row) = str_lower "alice@x.com"
  ∧ let r := demo_update_user true "alice" "alice@x.com" false true false
               (Some ["B"; "C"; "Z"]) false None demo_rnd demo_groups_db in
    (SetAttr attr_is_staff ∈ trace r ↔ row_is_staff alice_row ≠ true)
    ∧ (SetAttr attr_is_superuser ∈ trace r ↔ row_is_superuser alice_row ≠ false)
    ∧ (SetAttr attr_password ∈ trace r
       ↔ false = true ∧ is_password_usable (row_password alice_row) = true)
    ∧ SetAttr attr_email ∉ trace r.
Proof.
  split; [reflexivity|]. split; [reflexivity|].
  apply (update_writes_exactly_what_differs str_lower demo_identify_hasher
           demo_make_password "alice" "alice@x.com" true false
           (Some ["B"; "C"; "Z"]) false None demo_rnd demo_groups_db alice_row);
    reflexivity.
Defined.
